(** * AuraCode dispatch-and-cache layer

    A shallow embedding of the browser-side dispatch layer of AuraCode:
    [AuraComm] (candidate ports, [dispatch], [tryPost], [handleResponse])
    and [AuraRunner] ([execute], [hash], [checkCache], [setCache],
    [runPython], [dispatchBridge]).

    JavaScript strings are sequences of UTF-16 code units, JavaScript values
    are an inductive type, and the asynchronous, effectful code is written in
    a state-and-exception monad over a [World] that holds the terminal and
    network log, the IndexedDB object store and the Pyodide flag. *)

From Stdlib Require Import ZArith NArith List String Ascii DecimalString Bool Lia.
From stdpp Require Import base option list gmap.

Local Open Scope N_scope.

(** ** JavaScript strings *)

(** A JavaScript string is a sequence of 16-bit code units. *)
Abbreviation jsstring := (list N).

(** String literals of the source, written as Rocq strings. *)
Definition js (s : string) : jsstring :=
  List.map N_of_ascii (list_ascii_of_string s).
Arguments js s%_string.

(** Decimal rendering of an integer, as in a template literal. *)
Definition show_Z (z : Z) : jsstring :=
  js (NilZero.string_of_int (Z.to_int z)).

(** [String.prototype.toUpperCase]. Only the letters a-z are mapped; the
    engine names of this program are ASCII identifiers, and the full Unicode
    case mapping of other code units is not modelled. *)
Definition toUpperCase (s : jsstring) : jsstring :=
  List.map (fun c => if (97 <=? c) && (c <=? 122) then c - 32 else c) s.

(** [String.prototype.substring(0, n)]. *)
Definition substring0 (n : nat) (s : jsstring) : jsstring := firstn n s.

(** White space and line terminators removed by [trim] and skipped by the
    string-to-number conversion. *)
Definition is_whitespace (c : N) : bool :=
  existsb (N.eqb c)
    [9; 10; 11; 12; 13; 32; 160; 5760; 8232; 8233; 8239; 8287; 12288; 65279]
  || ((8192 <=? c) && (c <=? 8202)).

Fixpoint trimStart (s : jsstring) : jsstring :=
  match s with
  | c :: rest => if is_whitespace c then trimStart rest else s
  | [] => []
  end.

Definition trim (s : jsstring) : jsstring :=
  rev (trimStart (rev (trimStart s))).

(** ** [btoa]: Base64 of a Latin-1 string *)

Definition b64_alphabet : jsstring :=
  js "ABCDEFGHIJKLMNOPQRSTUVWXYZabcdefghijklmnopqrstuvwxyz0123456789+/".

Definition b64_char (i : N) : N := nth (N.to_nat i) b64_alphabet 0.

Fixpoint b64_encode (l : list N) : jsstring :=
  match l with
  | [] => []
  | [a] =>
      let n := a * 65536 in
      [b64_char (n / 262144); b64_char ((n / 4096) mod 64); 61; 61]
  | [a; b] =>
      let n := a * 65536 + b * 256 in
      [b64_char (n / 262144); b64_char ((n / 4096) mod 64);
       b64_char ((n / 64) mod 64); 61]
  | a :: b :: c :: rest =>
      let n := a * 65536 + b * 256 + c in
      [b64_char (n / 262144); b64_char ((n / 4096) mod 64);
       b64_char ((n / 64) mod 64); b64_char (n mod 64)] ++ b64_encode rest
  end.

(** [btoa(s)] throws an [InvalidCharacterError] when [s] has a code unit
    above 255; [None] stands for that exception. *)
Definition btoa (s : jsstring) : option jsstring :=
  if forallb (fun c => c <=? 255) s then Some (b64_encode s) else None.

(** ** [TextEncoder.encode]: UTF-8 of a UTF-16 string *)

Definition is_high_surrogate (c : N) : bool := (55296 <=? c) && (c <=? 56319).
Definition is_low_surrogate (c : N) : bool := (56320 <=? c) && (c <=? 57343).

Definition replacement_utf8 : list N := [239; 191; 189].

Definition utf8_3 (c : N) : list N :=
  [224 + c / 4096; 128 + (c / 64) mod 64; 128 + c mod 64].

Definition utf8_4 (cp : N) : list N :=
  [240 + cp / 262144; 128 + (cp / 4096) mod 64;
   128 + (cp / 64) mod 64; 128 + cp mod 64].

Fixpoint utf8_encode (s : jsstring) : list N :=
  match s with
  | [] => []
  | c :: rest =>
      if c <? 128 then c :: utf8_encode rest
      else if c <? 2048 then [192 + c / 64; 128 + c mod 64] ++ utf8_encode rest
      else if is_high_surrogate c then
        match rest with
        | d :: rest' =>
            if is_low_surrogate d
            then utf8_4 (65536 + (c - 55296) * 1024 + (d - 56320))
                   ++ utf8_encode rest'
            else replacement_utf8 ++ utf8_encode rest
        | [] => replacement_utf8
        end
      else if is_low_surrogate c then replacement_utf8 ++ utf8_encode rest
      else utf8_3 c ++ utf8_encode rest
  end.

(** ** SHA-256 ([crypto.subtle.digest('SHA-256', _)]) over bytes *)

Module SHA256.

Definition w32 (x : N) : N := x mod 4294967296.
Definition add32 (x y : N) : N := w32 (x + y).
Definition rotr (n x : N) : N :=
  N.lor (N.shiftr x n) (w32 (N.shiftl x (32 - n))).
Definition not32 (x : N) : N := N.lxor x 4294967295.

Definition Ch (x y z : N) : N := N.lxor (N.land x y) (N.land (not32 x) z).
Definition Maj (x y z : N) : N :=
  N.lxor (N.land x y) (N.lxor (N.land x z) (N.land y z)).
Definition Sigma0 (x : N) : N := N.lxor (rotr 2 x) (N.lxor (rotr 13 x) (rotr 22 x)).
Definition Sigma1 (x : N) : N := N.lxor (rotr 6 x) (N.lxor (rotr 11 x) (rotr 25 x)).
Definition sigma0 (x : N) : N := N.lxor (rotr 7 x) (N.lxor (rotr 18 x) (N.shiftr x 3)).
Definition sigma1 (x : N) : N := N.lxor (rotr 17 x) (N.lxor (rotr 19 x) (N.shiftr x 10)).

Definition K : list N :=
  [1116352408; 1899447441; 3049323471; 3921009573; 961987163; 1508970993;
   2453635748; 2870763221; 3624381080; 310598401; 607225278; 1426881987;
   1925078388; 2162078206; 2614888103; 3248222580; 3835390401; 4022224774;
   264347078; 604807628; 770255983; 1249150122; 1555081692; 1996064986;
   2554220882; 2821834349; 2952996808; 3210313671; 3336571891; 3584528711;
   113926993; 338241895; 666307205; 773529912; 1294757372; 1396182291;
   1695183700; 1986661051; 2177026350; 2456956037; 2730485921; 2820302411;
   3259730800; 3345764771; 3516065817; 3600352804; 4094571909; 275423344;
   430227734; 506948616; 659060556; 883997877; 958139571; 1322822218;
   1537002063; 1747873779; 1955562222; 2024104815; 2227730452; 2361852424;
   2428436474; 2756734187; 3204031479; 3329325298].

Definition H0 : list N :=
  [1779033703; 3144134277; 1013904242; 2773480762;
   1359893119; 2600822924; 528734635; 1541459225].

(** Big-endian bytes of a word of [n] bytes. *)
Fixpoint be_bytes (n : nat) (x : N) : list N :=
  match n with
  | O => []
  | S n' => be_bytes n' (x / 256) ++ [x mod 256]
  end.

Definition be_word (bs : list N) : N :=
  fold_left (fun acc b => acc * 256 + b) bs 0.

(** The message, a 1 bit, zero bits up to 56 mod 64 bytes, the bit length. *)
Definition pad (msg : list N) : list N :=
  let len := N.of_nat (length msg) in
  let zeros := N.to_nat ((64 + 55 - len mod 64) mod 64) in
  msg ++ [128] ++ repeat 0 zeros ++ be_bytes 8 (len * 8).

(** [chunks fuel n l]: [l] cut into pieces of [n] elements. *)
Fixpoint chunks {A} (fuel n : nat) (l : list A) : list (list A) :=
  match fuel, l with
  | _, [] => []
  | O, _ => []
  | S fuel', _ => firstn n l :: chunks fuel' n (skipn n l)
  end.

(** The message schedule, newest word first. *)
Fixpoint schedule (n : nat) (rw : list N) : list N :=
  match n with
  | O => rw
  | S n' =>
      let w := add32 (add32 (sigma1 (nth 1 rw 0)) (nth 6 rw 0))
                     (add32 (sigma0 (nth 14 rw 0)) (nth 15 rw 0)) in
      schedule n' (w :: rw)
  end.

Definition round (st : list N) (kw : N * N) : list N :=
  match st with
  | [a; b; c; d; e; f; g; h] =>
      let t1 := add32 (add32 (add32 h (Sigma1 e)) (add32 (Ch e f g) (fst kw))) (snd kw) in
      let t2 := add32 (Sigma0 a) (Maj a b c) in
      [add32 t1 t2; a; b; c; add32 d t1; e; f; g]
  | _ => st
  end.

Definition compress (st : list N) (block : list N) : list N :=
  let w := rev (schedule 48 (rev (List.map be_word (chunks 16 4 block)))) in
  List.map (fun p => add32 (fst p) (snd p))
           (combine st (fold_left round (combine K w) st)).

Definition digest (msg : list N) : list N :=
  let padded := pad msg in
  flat_map (be_bytes 4)
           (fold_left compress (chunks (length padded) 64 padded) H0).

End SHA256.

(** [b.toString(16).padStart(2, '0')] for a byte [b]. *)
Definition hex_digit (d : N) : N := nth (N.to_nat d) (js "0123456789abcdef") 0.
Definition hex_byte (b : N) : jsstring := [hex_digit (b / 16); hex_digit (b mod 16)].

(** ** The text of a number *)

(** The double nearest to the positive integer [n], ties going to the even
    significand; [None] when [n] is beyond the largest double. *)
Definition nearest_double (n : Z) : option Z :=
  let q := (Z.log2 n - 52)%Z in
  if (q <=? 0)%Z then Some n
  else
    let m := (n / 2 ^ q)%Z in
    let r := (n mod 2 ^ q)%Z in
    let half := (2 ^ (q - 1))%Z in
    let m' := if (half <? r)%Z || ((r =? half)%Z && Z.odd m)
              then (m + 1)%Z else m in
    if (2 ^ 1024 <=? m' * 2 ^ q)%Z then None else Some (m' * 2 ^ q)%Z.

(** The shortest decimal that reads back as the double [v], an integer of
    [len] digits: the least number [k] of leading digits for which one of
    the two neighbours of [v] with [len - k] final zeros rounds to [v], and
    of the two the nearer one (the even one when both are as near). *)
Fixpoint shortest (v len : Z) (k fuel : nat) : Z :=
  match fuel with
  | O => v
  | S fuel' =>
      let unit := (10 ^ (len - Z.of_nat k))%Z in
      let lo := (v / unit * unit)%Z in
      let hi := (lo + unit)%Z in
      let reads_back c := bool_decide (nearest_double c = Some v) in
      match reads_back lo, reads_back hi with
      | true, true =>
          if (v - lo <? hi - v)%Z then lo
          else if (hi - v <? v - lo)%Z then hi
          else if Z.even (v / unit) then lo else hi
      | true, false => lo
      | false, true => hi
      | false, false => shortest v len (S k) fuel'
      end
  end.

Fixpoint skip_zeros (s : jsstring) : jsstring :=
  match s with
  | c :: rest => if c =? 48 then skip_zeros rest else s
  | [] => []
  end.

(** [d.ddde+x] for the digits of an integer of 22 digits or more. *)
Definition exponent_form (digits : jsstring) : jsstring :=
  let significant := rev (skip_zeros (rev digits)) in
  match significant with
  | [] => []
  | d :: rest =>
      d :: match rest with [] => [] | _ :: _ => 46 :: rest end
        ++ js "e+" ++ show_Z (Z.of_nat (length digits) - 1)
  end.

(** [Number::toString] of the number that the integer literal [n] denotes,
    the double nearest to [n]: all its digits up to 2^53, the shortest
    digits that read back and zeros after them up to 21 digits, the
    exponent form beyond. *)
Definition NumberToString (n : Z) : jsstring :=
  let sign := if (n <? 0)%Z then js "-" else [] in
  match nearest_double (Z.abs n) with
  | None => sign ++ js "Infinity"
  | Some v =>
      if (v <? 2 ^ 53)%Z then sign ++ show_Z v
      else
        let c := shortest v (Z.of_nat (length (show_Z v))) 1 17 in
        if (c <? 10 ^ 21)%Z then sign ++ show_Z c
        else sign ++ exponent_form (show_Z c)
  end.

(** ** JavaScript values *)

Set Warnings "-register-all".

(** The values this program handles: parsed JSON bodies, their properties
    and the entries of the object store. A number is an integer literal
    (exit codes and millisecond counts) and stands for the double nearest
    to it; literals with a fraction are outside this type. An object is its
    list of own properties, none of them callable. *)
Inductive value :=
| VUndef
| VNull
| VBool (b : bool)
| VNum (n : Z)
| VStr (s : jsstring)
| VArr (items : list value)
| VObj (fields : list (jsstring * value)).

(** The string that [ToString], as applied by template literals and
    [String(_)], returns when it returns ([converts] below says when). An
    array joins its elements with commas, [null] and [undefined] elements
    giving the empty string. *)
Fixpoint ToString (v : value) : jsstring :=
  match v with
  | VUndef => js "undefined"
  | VNull => js "null"
  | VBool true => js "true"
  | VBool false => js "false"
  | VNum n => NumberToString n
  | VStr s => s
  | VArr items =>
      (fix join (l : list value) : jsstring :=
         match l with
         | [] => []
         | x :: rest =>
             let sx := match x with
                       | VUndef | VNull => []
                       | _ => ToString x
                       end in
             match rest with
             | [] => sx
             | _ :: _ => sx ++ js "," ++ join rest
             end
         end) items
  | VObj _ => js "[object Object]"
  end.

(** Truthiness, as tested by [if (_)], [&&] and [||]. *)
Definition truthy (v : value) : bool :=
  match v with
  | VUndef | VNull => false
  | VBool b => b
  | VNum n => negb (n =? 0)%Z
  | VStr s => match s with [] => false | _ :: _ => true end
  | VArr _ | VObj _ => true
  end.

(** [a || b] and [a ?? b]. *)
Definition or_else (a b : value) : value := if truthy a then a else b.
Definition nullish (a b : value) : value :=
  match a with
  | VUndef | VNull => b
  | _ => a
  end.

(** [v === "s"] for a string literal. *)
Definition strict_eq_string (v : value) (s : jsstring) : bool :=
  match v with
  | VStr s' => bool_decide (s' = s)
  | _ => false
  end.

(** [typeof data === 'object'] ([null] included). *)
Definition typeof_object (v : value) : bool :=
  match v with
  | VNull | VArr _ | VObj _ => true
  | _ => false
  end.

Fixpoint assoc {A} (k : jsstring) (l : list (jsstring * A)) : option A :=
  match l with
  | [] => None
  | (k', v) :: rest => if bool_decide (k = k') then Some v else assoc k rest
  end.

(** Whether [ToString] and [Number(_)] return on [v]. The properties of a
    parsed object hold data, so an own property [toString] is not callable
    and shadows [Object.prototype.toString]; [valueOf], own or inherited,
    gives no primitive either, and the conversion raises a TypeError.
    Without an own [toString] the inherited one answers. An array joins its
    elements, converting each one but [null] and [undefined]. *)
Fixpoint converts (v : value) : bool :=
  match v with
  | VArr items => forallb converts items
  | VObj fields =>
      match assoc (js "toString") fields with
      | Some _ => false
      | None => true
      end
  | _ => true
  end.

(** The message of that TypeError, in V8's words. *)
Definition not_primitive : jsstring :=
  js "Cannot convert object to primitive value".

(** [data.k] for one of the property names this program reads ([stdout],
    [exit_code], [latency_ms], [status], [error], [message]): none of them
    is defined on [Object.prototype] or [Array.prototype], so the read
    finds an own property of an object or nothing. *)
Definition get (data : value) (k : jsstring) : value :=
  match data with
  | VObj fields => default VUndef (assoc k fields)
  | _ => VUndef
  end.

(** ['k' in data], for the same property names. *)
Definition has (data : value) (k : jsstring) : bool :=
  match data with
  | VObj fields => bool_decide (is_Some (assoc k fields))
  | _ => false
  end.

(** ** [Number(_)] and [=== 0] *)

(** The mathematical value of a numeric conversion before it is rounded to
    a double: [Dec m e] is [m * 10^e]. *)
Inductive number :=
| NaN
| Infinity (negative : bool)
| Dec (m e : Z).

Definition digit_val (base c : N) : option N :=
  let v := if (48 <=? c) && (c <=? 57) then Some (c - 48)
           else if (97 <=? c) && (c <=? 102) then Some (c - 87)
           else if (65 <=? c) && (c <=? 70) then Some (c - 55)
           else None in
  match v with
  | Some d => if d <? base then Some d else None
  | None => None
  end.

(** The longest prefix of digits of [s]: accumulated value, number of
    digits read, and what follows. *)
Fixpoint digits (base : N) (s : jsstring) (acc : N) (count : nat)
  : N * nat * jsstring :=
  match s with
  | [] => (acc, count, [])
  | c :: rest =>
      match digit_val base c with
      | Some d => digits base rest (acc * base + d) (S count)
      | None => (acc, count, s)
      end
  end.

(** [0x..], [0o..], [0b..] after the prefix. *)
Definition radix_literal (base : N) (s : jsstring) : number :=
  match digits base s 0 0 with
  | (v, S _, []) => Dec (Z.of_N v) 0
  | _ => NaN
  end.

(** What may follow the mantissa: nothing, or [e]/[E], a sign, digits. *)
Definition exponent_part (s : jsstring) : option Z :=
  match s with
  | [] => Some 0%Z
  | c :: rest =>
      if (c =? 101) || (c =? 69) then
        let '(neg, rest') :=
          match rest with
          | d :: r => if d =? 43 then (false, r)
                      else if d =? 45 then (true, r) else (false, rest)
          | [] => (false, rest)
          end in
        match digits 10 rest' 0 0 with
        | (v, S _, []) => Some (if neg then (- Z.of_N v)%Z else Z.of_N v)
        | _ => None
        end
      else None
  end.

Definition unsigned_decimal (s : jsstring) : number :=
  let '(m1, n1, r1) := digits 10 s 0 0 in
  let '(m, n2, r2) :=
    match r1 with
    | c :: r => if c =? 46 then digits 10 r m1 0 else (m1, O, r1)
    | [] => (m1, O, r1)
    end in
  match (n1 + n2)%nat with
  | O => NaN
  | S _ =>
      match exponent_part r2 with
      | Some e => Dec (Z.of_N m) (e - Z.of_nat n2)
      | None => NaN
      end
  end.

Definition signed_decimal (s : jsstring) : number :=
  let '(neg, body) :=
    match s with
    | c :: r => if c =? 43 then (false, r)
                else if c =? 45 then (true, r) else (false, s)
    | [] => (false, s)
    end in
  if bool_decide (body = js "Infinity") then Infinity neg
  else match unsigned_decimal body with
       | Dec m e => Dec (if neg then (- m)%Z else m) e
       | n => n
       end.

(** [StringToNumber]: white space trimmed, the empty string is 0. *)
Definition StringToNumber (s : jsstring) : number :=
  match trim s with
  | [] => Dec 0 0
  | c0 :: c1 :: r =>
      if c0 =? 48 then
        if (c1 =? 120) || (c1 =? 88) then radix_literal 16 r
        else if (c1 =? 111) || (c1 =? 79) then radix_literal 8 r
        else if (c1 =? 98) || (c1 =? 66) then radix_literal 2 r
        else signed_decimal (c0 :: c1 :: r)
      else signed_decimal (c0 :: c1 :: r)
  | t => signed_decimal t
  end.

(** The number that [Number(v)] returns when it returns, which is when
    [converts v]: arrays and objects go through their string. *)
Definition Number (v : value) : number :=
  match v with
  | VUndef => NaN
  | VNull => Dec 0 0
  | VBool b => Dec (if b then 1 else 0) 0
  | VNum n => Dec n 0
  | VStr s => StringToNumber s
  | VArr _ | VObj _ => StringToNumber (ToString v)
  end.

(** [n === 0] once [n] is rounded to a double: the value is zero, or so
    small that it rounds to zero (at most 2^-1075 in magnitude). *)
Definition is_zero (n : number) : bool :=
  match n with
  | Dec m e =>
      (m =? 0)%Z
      || ((e <? 0)%Z && (Z.abs m * 2 ^ 1075 <=? 10 ^ (- e))%Z)
  | _ => false
  end.

(** ** Results, events and the world *)

(** The object literals returned by [handleResponse] and [dispatch]:
    [{ success, output, exit_code, latency_ms }] or [{ success, error }].
    A property that a literal does not define reads as [undefined]. *)
Record NodeResult := mkResult {
  success : bool;
  output : value;
  exit_code : value;
  latency_ms : value;
  error : value
}.

(** No result literal defines a [stdout] property. *)
Definition stdout (r : NodeResult) : value := VUndef.

(** The same object as a JavaScript value. *)
Definition result_value (r : NodeResult) : value :=
  VObj [(js "success", VBool (success r)); (js "output", output r);
        (js "exit_code", exit_code r); (js "latency_ms", latency_ms r);
        (js "error", error r)].

(** The request body posted to a node. *)
Record Payload := mkPayload {
  op : jsstring;
  timestamp : Z;
  id : jsstring;
  language : jsstring;
  source : jsstring;
  optimization : jsstring;
  vfs_mount : bool
}.

(** What the program does to its surroundings, in order. *)
Inductive event :=
| Print (msg type : jsstring)                       (* Terminal.print *)
| Fetch (url : jsstring) (body : Payload) (timeout : Z)   (* one POST *)
| Delay (ms : Z)                                    (* setTimeout wait *)
| WorkerPost (code : jsstring)                      (* worker.postMessage *)
| PyodideLoad                                       (* loadPyodide *)
| PyodideRun (code : jsstring).                     (* runPythonAsync *)

(** [log]: the events so far, oldest first. [execution_results]: the
    IndexedDB object store of [AuraSystem.cache]. [pyodide]: whether
    [AuraSystem.pyodide] is loaded. *)
Record World := mkWorld {
  log : list event;
  execution_results : gmap jsstring value;
  pyodide : bool
}.

(** What a node answers to one POST. *)
Inductive response :=
| Unreachable (message : jsstring)      (* fetch rejects *)
| Reply (delay : Z) (status : Z) (body : value + jsstring).
                                        (* body: parsed JSON, or the
                                           message of the parse error *)

(** What Pyodide answers to [runPythonAsync]. *)
Inductive py_result :=
| PyRaise (message : jsstring)
| PyUndefined
| PyValue (text : jsstring).            (* String(result) *)

(** The surroundings of the page. [fetch n] is the network at the [n]-th
    request the page makes; the clock, the UUID source and Pyodide are read
    at the length of the log. *)
Record Env := mkEnv {
  now : nat -> Z;
  randomUUID : nat -> jsstring;
  fetch : nat -> jsstring -> Payload -> response;
  abort_message : jsstring;
  loadPyodide : nat -> option jsstring;   (* Some: rejects with the message *)
  loadPackage : nat -> option jsstring;   (* Some: rejects with the message *)
  runPythonAsync : nat -> jsstring -> py_result
}.

(** ** The monad of effectful code: state and exceptions *)

Inductive outcome (A : Type) :=
| Ret (a : A)
| Throw (message : jsstring).
Arguments Ret {A} a.
Arguments Throw {A} message.

Definition M (A : Type) : Type := World -> outcome A * World.

#[global] Instance M_ret : MRet M := fun A a w => (Ret a, w).
#[global] Instance M_bind : MBind M := fun A B f m w =>
  match m w with
  | (Ret a, w') => f a w'
  | (Throw e, w') => (Throw e, w')
  end.

Definition throw {A} (e : jsstring) : M A := fun w => (Throw e, w).

(** [try { m } catch (e) { h e }]. *)
Definition try_catch {A} (m : M A) (h : jsstring -> M A) : M A := fun w =>
  match m w with
  | (Ret a, w') => (Ret a, w')
  | (Throw e, w') => h e w'
  end.

Definition emit (e : event) : M unit := fun w =>
  (Ret tt, mkWorld (log w ++ [e]) (execution_results w) (pyodide w)).

Definition clock : M nat := fun w => (Ret (length (log w)), w).

Definition is_fetch (e : event) : bool :=
  match e with
  | Fetch _ _ _ => true
  | _ => false
  end.

(** The requests among the events [l]. *)
Definition requests (l : list event) : list event := List.filter is_fetch l.

Definition request_count : M nat := fun w =>
  (Ret (length (requests (log w))), w).

(** [Terminal.print(msg, type)] for a message that is a string. *)
Definition print (msg type : jsstring) : M unit := emit (Print msg type).

(** [`${v}`] and [Number(v)] where they are evaluated: the conversion
    returns or throws the TypeError. *)
Definition string_of (v : value) : M jsstring :=
  if converts v then mret (ToString v) else throw not_primitive.

Definition number_of (v : value) : M number :=
  if converts v then mret (Number v) else throw not_primitive.

(** [AuraTerminal.print(v, type)] for a message that is any value: [print]
    puts it through a template literal before anything reaches the page. *)
Definition print_value (v : value) (type : jsstring) : M unit :=
  text ← string_of v;
  print text type.

(** ** AuraComm: the router between the page and the native nodes *)

Module AuraComm.

(** [Array.from({length:10}, (_,i) => base + i)]. *)
Definition port_range (base : Z) : list Z :=
  List.map (fun i => (base + Z.of_nat i)%Z) (seq 0 10).

(** The own properties of [AuraComm.nodes]. *)
Definition nodes : gmap jsstring (list Z) :=
  {[ js "cpp" := port_range 56000;
     js "python" := port_range 55000;
     js "rust" := port_range 58000 ]}.

(** The properties every object literal inherits from [Object.prototype],
    each with the value of its [length]: eleven functions, and the
    [__proto__] accessor, which reads as the prototype object itself. *)
Definition Object_prototype : list (jsstring * value) :=
  [(js "constructor", VNum 1); (js "__defineGetter__", VNum 2);
   (js "__defineSetter__", VNum 2); (js "hasOwnProperty", VNum 1);
   (js "__lookupGetter__", VNum 1); (js "__lookupSetter__", VNum 1);
   (js "isPrototypeOf", VNum 1); (js "propertyIsEnumerable", VNum 1);
   (js "toString", VNum 0); (js "valueOf", VNum 0);
   (js "toLocaleString", VNum 0); (js "__proto__", VUndef)].

(** The value of [this.nodes[lang] || this.nodes.python]. *)
Inductive candidates :=
| Ports (ports : list Z)          (* an array of ports *)
| Inherited (len : value)         (* a member of Object.prototype *)
| Undefined.                      (* no such node and no python node *)

Definition lookup_ports (nodes : gmap jsstring (list Z)) (lang : jsstring)
  : candidates :=
  match nodes !! lang with
  | Some ports => Ports ports
  | None =>
      match assoc lang Object_prototype with
      | Some len => Inherited len
      | None =>
          match nodes !! js "python" with
          | Some ports => Ports ports
          | None => Undefined
          end
      end
  end.

(** [(lang === 'python') ? '/execute' : '/bridge']. *)
Definition path_of (lang : jsstring) : jsstring :=
  if bool_decide (lang = js "python") then js "/execute" else js "/bridge".

(** [`http://localhost:${port}${path}`]. *)
Definition url_of (port : Z) (path : jsstring) : jsstring :=
  js "http://localhost:" ++ show_Z port ++ path.

(** [4000 + attempt * 500] and [200 + attempt * 50]. *)
Definition timeout_of (attempt : nat) : Z := (4000 + Z.of_nat attempt * 500)%Z.
Definition backoff_of (attempt : nat) : Z := (200 + Z.of_nat attempt * 50)%Z.

(** [resp.ok]. *)
Definition status_ok (status : Z) : bool :=
  ((200 <=? status) && (status <=? 299))%Z.

(** What one [tryPost] comes to, given the node's answer: the parsed body,
    or the message of the exception it throws (rejected fetch, abort after
    [timeout] ms, status outside 200-299, body that is not JSON). *)
Definition settle (abort : jsstring) (timeout : Z) (r : response)
  : value + jsstring :=
  match r with
  | Unreachable msg => inr msg
  | Reply delay status body =>
      if (timeout <=? delay)%Z then inr abort
      else if negb (status_ok status) then inr (js "HTTP " ++ show_Z status)
      else body
  end.

(** [handleResponse(data)]; [None] is the [undefined] of a call that runs
    off the end of the function. *)
Definition handleResponse (data : value) : M (option NodeResult) :=
  try_catch
    (if truthy data && typeof_object data then
       if has data (js "stdout") && has data (js "exit_code") then
         code ← number_of (get data (js "exit_code"));
         let ok := is_zero code in
         exit ← string_of (get data (js "exit_code"));
         latency ← string_of (nullish (get data (js "latency_ms")) (VNum 0));
         print (js "Node Response: [Exit " ++ exit ++ js "] [" ++ latency
                  ++ js "ms]")
               (if ok then js "success" else js "error");;
         mret (Some (mkResult ok (get data (js "stdout"))
                              (get data (js "exit_code"))
                              (nullish (get data (js "latency_ms")) (VNum 0))
                              VUndef))
       else if strict_eq_string (get data (js "status")) (js "success") then
         latency ← string_of (nullish (get data (js "latency_ms")) (VNum 0));
         print (js "Node Response: [Exit 0] [" ++ latency ++ js "ms]")
               (js "success");;
         mret (Some (mkResult true (get data (js "stdout")) (VNum 0)
                              (nullish (get data (js "latency_ms")) (VNum 0))
                              VUndef))
       else
         let err := or_else (get data (js "error"))
                      (or_else (get data (js "message"))
                               (VStr (js "Unknown node response"))) in
         text ← string_of err;
         print (js "Node Exception: " ++ text) (js "error");;
         mret (Some (mkResult false VUndef VUndef VUndef err))
     else mret None)
    (fun e =>
       print (js "Response Parse Error: " ++ e) (js "error");;
       mret (Some (mkResult false VUndef VUndef VUndef (VStr e)))).

Section WithEnv.

Variable env : Env.

(** The outcome of the [n]-th request of the page. *)
Definition attempt_outcome (n : nat) (url : jsstring) (body : Payload)
    (timeout : Z) : value + jsstring :=
  settle (abort_message env) timeout (fetch env n url body).

Definition tryPost (url : jsstring) (body : Payload) (timeout : Z) : M value :=
  n ← request_count;
  emit (Fetch url body timeout);;
  match attempt_outcome n url body timeout with
  | inl data => mret data
  | inr msg => throw msg
  end.

(** The [for (const port of ports)] loop, with the final failure after it.
    [total] is [ports.length]; [attempt] counts the ports already tried. *)
Fixpoint probe (lang path : jsstring) (payload : Payload) (total : nat)
    (ports : list Z) (attempt : nat) : M (option NodeResult) :=
  match ports with
  | [] =>
      print (js "Comm Error: All " ++ show_Z (Z.of_nat total)
               ++ js " ports failed for " ++ toUpperCase lang)
            (js "error");;
      mret (Some (mkResult false VUndef VUndef VUndef
                    (VStr (js "No available " ++ lang ++ js " node ports"))))
  | port :: rest =>
      let attempt := S attempt in
      let url := url_of port path in
      print (js "Comm: Attempt " ++ show_Z (Z.of_nat attempt) ++ js " -> " ++ url)
            (js "dim");;
      try_catch
        (result ← tryPost url payload (timeout_of attempt);
         handleResponse result)
        (fun err =>
           print (js "Comm: Port " ++ show_Z port ++ js " failed (" ++ err
                    ++ js ").")
                 (js "dim");;
           emit (Delay (backoff_of attempt));;
           probe lang path payload total rest attempt)
  end.

(** The request body built at the start of [dispatch], at clock [t]. *)
Definition payload_of (t : nat) (lang b64 : jsstring) : Payload :=
  mkPayload (js "EXECUTE_SOURCE") (now env t) (randomUUID env t)
            lang b64 (js "O3") true.

(** [dispatch(lang, source)] of an [AuraComm] whose [nodes] are [nodes]. A
    source that [btoa] rejects throws its exception, here under its name
    [InvalidCharacterError]; the wording of its message differs between
    browsers. *)
Definition dispatch (nodes : gmap jsstring (list Z)) (lang source : jsstring)
  : M (option NodeResult) :=
  t ← clock;
  match btoa source with
  | None => throw (js "InvalidCharacterError")
  | Some b64 =>
      let payload := payload_of t lang b64 in
      print (js "Comm: Payload " ++ substring0 8 (id payload) ++ js " generated.")
            (js "dim");;
      let path := path_of lang in
      match lookup_ports nodes lang with
      | Undefined =>
          throw (js "Cannot read properties of undefined (reading 'length')")
      | Inherited len =>
          print (js "Comm: Trying " ++ ToString len ++ js " ports for "
                   ++ toUpperCase lang ++ js " node...")
                (js "info");;
          throw (js "ports is not iterable")
      | Ports ports =>
          print (js "Comm: Trying " ++ show_Z (Z.of_nat (length ports))
                   ++ js " ports for " ++ toUpperCase lang ++ js " node...")
                (js "info");;
          probe lang path payload (length ports) ports 0
      end
  end.

End WithEnv.

End AuraComm.

(** ** AuraRunner: memoised execution *)

Module AuraRunner.

(** [hash(text)]: the SHA-256 of the UTF-8 bytes, in lower-case hex. *)
Definition hash (text : jsstring) : jsstring :=
  flat_map hex_byte (SHA256.digest (utf8_encode text)).

(** [checkCache(hash)]: the stored value, [undefined] when there is none.
    Reads of the object store succeed; the [onerror] answer [null] is a
    miss like [undefined]. *)
Definition checkCache (hash : jsstring) : M value := fun w =>
  (Ret (default VUndef (execution_results w !! hash)), w).

(** [setCache(hash, result)]: [put(result, hash)]. *)
Definition setCache (hash : jsstring) (result : value) : M unit := fun w =>
  (Ret tt, mkWorld (log w) (<[hash := result]> (execution_results w)) (pyodide w)).

(** [`[${lang.toUpperCase()}] Fallback Execution simulated.`]. *)
Definition fallback_of (lang : jsstring) : jsstring :=
  js "[" ++ toUpperCase lang ++ js "] Fallback Execution simulated.".

(** The string of [`[${lang.toUpperCase()}] Exit:${exit} ${out}`]. *)
Definition summary_of (lang : jsstring) (r : NodeResult) : jsstring :=
  let out := nullish (output r) (nullish (stdout r) (VStr [])) in
  let exit := nullish (exit_code r) (VNum 0) in
  js "[" ++ toUpperCase lang ++ js "] Exit:" ++ ToString exit ++ js " "
     ++ ToString out.

(** The template literal where it is evaluated: [exit] is converted, then
    [out]. *)
Definition summary (lang : jsstring) (r : NodeResult) : M jsstring :=
  let out := nullish (output r) (nullish (stdout r) (VStr [])) in
  let exit := nullish (exit_code r) (VNum 0) in
  exit_text ← string_of exit;
  out_text ← string_of out;
  mret (js "[" ++ toUpperCase lang ++ js "] Exit:" ++ exit_text ++ js " "
          ++ out_text).

Section WithEnv.

Variable env : Env.

(** The [nodes] of the [AuraComm] object the runner dispatches through. *)
Variable nodes : gmap jsstring (list Z).

(** [AuraSystem.pyodide = await loadPyodide(); await
    AuraSystem.pyodide.loadPackage("micropip")]. *)
Definition warm_up : M unit :=
  t ← clock;
  emit PyodideLoad;;
  match loadPyodide env t with
  | Some msg => throw msg
  | None =>
      (fun w => (Ret tt, mkWorld (log w) (execution_results w) true));;
      match loadPackage env t with
      | Some msg => throw msg
      | None => mret tt
      end
  end.

(** [await AuraSystem.pyodide.runPythonAsync(code)]. *)
Definition run_pyodide (code : jsstring) : M py_result :=
  t ← clock;
  emit (PyodideRun code);;
  match runPythonAsync env t code with
  | PyRaise msg => throw msg
  | r => mret r
  end.

(** The second half of [runPython], after its [try] block: the fallback to
    Pyodide when the native node gave no successful result. *)
Definition wasm_fallback (code hash : jsstring) : M unit :=
  loaded ← (fun w => (Ret (pyodide w), w));
  (if (loaded : bool) then mret tt
   else print (js "WASM Warming up...") (js "info");; warm_up);;
  result ← run_pyodide code;
  let output := match result with
                | PyValue text => text
                | _ => js "Done"
                end in
  setCache hash (VStr output);;
  print output (js "success").

(** [runPython(code, hash)]: the native node first; [true] from the [try]
    block stands for its [return]. *)
Definition runPython (code hash : jsstring) : M unit :=
  done ← try_catch
    (res ← AuraComm.dispatch env nodes (js "python") code;
     match res with
     | Some r =>
         if success r then
           let out := nullish (output r) (nullish (stdout r) (VStr [])) in
           setCache hash out;;
           print_value out (js "success");;
           mret true
         else mret false
     | None => mret false
     end)
    (fun _ => mret false);
  if (done : bool) then mret tt else wasm_fallback code hash.

(** [dispatchBridge(code, lang, hash)]. *)
Definition dispatchBridge (code lang hash : jsstring) : M unit :=
  print (js "Bridge: Payload " ++ lang ++ js " optimized. Dispatching...")
        (js "dim");;
  let fail (err : value) : M unit :=
    text ← string_of err;
    print (js "Bridge Dispatch Failed: " ++ text) (js "error");;
    setCache hash (VStr (fallback_of lang));;
    print (fallback_of lang) (js "success") in
  try_catch
    (res ← AuraComm.dispatch env nodes lang code;
     match res with
     | Some r =>
         if success r then
           let latency := nullish (latency_ms r) (VNum 0) in
           summary ← summary lang r;
           setCache hash (VStr summary);;
           latency_text ← string_of latency;
           print (summary ++ js " [" ++ latency_text ++ js "ms]")
                 (js "success")
         else fail (or_else (error r) (VStr (js "Unknown bridge error")))
     | None => fail (or_else VUndef (VStr (js "Unknown bridge error")))
     end)
    (fun e =>
       print (js "Bridge Exception: " ++ e) (js "error");;
       setCache hash (VStr (fallback_of lang));;
       print (fallback_of lang) (js "success")).

(** The key under which [execute] looks up and stores: [hash(code + engine)]. *)
Definition codeHash (code engine : jsstring) : jsstring := hash (code ++ engine).

(** [execute()]. [engineEl] is the value of the language selector when the
    page has one, [code] the value of the code canvas. *)
Definition execute (engineEl : option jsstring) (code : jsstring) : M unit :=
  let engine := default (js "javascript") engineEl in
  match trim code with
  | [] => print (js "Buffer empty.") (js "error")
  | _ :: _ =>
      cachedResult ← checkCache (codeHash code engine);
      if truthy cachedResult then
        print (js "Result retrieved from local cache (0ms).") (js "info");;
        print_value cachedResult (js "success")
      else
        print (js "Offloading " ++ toUpperCase engine
                 ++ js " to background thread...")
              (js "info");;
        try_catch
          (if bool_decide (engine = js "javascript") then emit (WorkerPost code)
           else if bool_decide (engine = js "python")
                then runPython code (codeHash code engine)
           else if bool_decide (engine = js "cpp")
                   || bool_decide (engine = js "rust")
                then dispatchBridge code engine (codeHash code engine)
           else print (js "Runtime not found.") (js "error"))
          (fun e => print (js "Thread Exception: " ++ e) (js "error"))
  end.

End WithEnv.

End AuraRunner.

(** ** The native bridge: [base64_decode]

    The C++ node decodes the [source] of a payload with its own Base64
    decoder. A C++ [std::string] is a list of bytes. *)

Module Bridge.

(** Arithmetic on a C++ [int]: 32 bits, two's complement, wrapping. *)
Definition int32 (z : Z) : Z :=
  ((z + 2147483648) mod 4294967296 - 2147483648)%Z.

(** [std::vector<int> T(256, -1); for (int i = 0; i < 64; i++)
    T[b64_chars[i]] = i;] with the same 64 characters as [btoa]. *)
Definition T : list Z :=
  foldl (fun T i => <[N.to_nat (b64_char (N.of_nat i)) := Z.of_nat i]> T)
        (replicate 256 (-1)%Z) (seq 0 64).

(** [T[c]] for an [unsigned char c]; bytes are below 256. *)
Definition T_at (c : N) : Z := default (-1)%Z (T !! N.to_nat c).

(** The loop [for (unsigned char c : in)], from [val], [valb] and [out]. *)
Fixpoint decode_loop (input : list N) (val valb : Z) (out : list N) : list N :=
  match input with
  | [] => out
  | c :: rest =>
      if (T_at c =? -1)%Z then out
      else
        let val := int32 (Z.shiftl val 6 + T_at c) in
        let valb := (valb + 6)%Z in
        if (0 <=? valb)%Z
        then decode_loop rest val (valb - 8)
               (out ++ [Z.to_N (Z.land (Z.shiftr val valb) 255)])
        else decode_loop rest val valb out
  end.

Definition base64_decode (input : list N) : list N :=
  decode_loop input 0 (-8) [].

End Bridge.

(** ** AuraTerminal: the command line of the page *)

Module AuraTerminal.

(** [s.split(sep)] for a separator of one character. *)
Fixpoint split (sep : N) (s : jsstring) : list jsstring :=
  match s with
  | [] => [[]]
  | c :: rest =>
      if c =? sep then [] :: split sep rest
      else match split sep rest with
           | piece :: pieces => (c :: piece) :: pieces
           | [] => [[c]]
           end
  end.

(** [pieces.pop()] of a split, which is never empty. *)
Definition pop (pieces : list jsstring) : jsstring := default [] (last pieces).

(** [s.replace(/\.git$/, '')]: one [.git] at the very end is removed. *)
Definition strip_git (s : jsstring) : jsstring :=
  if bool_decide (skipn (length s - 4) s = js ".git")
  then firstn (length s - 4) s
  else s.

(** The part of the page that the command line works on. [lines]: the
    children of the terminal stream, each a message and its type.
    [input]: the value of the input field. [node_modules]: the own
    properties of [AuraSystem.vfs.node_modules], an ordinary object (the
    literal of [AuraSystem], or what [saveVFS] wrote of one), and
    [node_modules_proto] its prototype once a write to [__proto__] has
    replaced it. [saved]:
    the [node_modules] of the VFS last written to local storage by
    [saveVFS]. [timers]: the callbacks that [handleInstall] has handed to
    [setTimeout], each with its delay, manager and package. *)
Record Page := mkPage {
  lines : list (jsstring * jsstring);
  input : jsstring;
  node_modules : gmap jsstring value;
  node_modules_proto : option value;
  saved : option (gmap jsstring value);
  timers : list (Z * jsstring * value)
}.

(** The handlers that reach outside this part of the page: their calls
    are handed back by [executeCommand]. *)
Inductive call :=
| HandlePip (pkg : value)
| HandleWget (url : value).

(** [print(msg, type)]: one more child of the terminal stream. *)
Definition print (msg type : jsstring) (p : Page) : Page :=
  mkPage (lines p ++ [(msg, type)]) (input p) (node_modules p)
         (node_modules_proto p) (saved p) (timers p).

(** [clear()]. *)
Definition clear (p : Page) : Page :=
  mkPage [] (input p) (node_modules p) (node_modules_proto p) (saved p)
         (timers p).

(** [AuraSystem.vfs.node_modules[key] = v]. A write to [__proto__]
    replaces the prototype when [v] is an object or [null] and is ignored
    otherwise; every other key becomes an own property. *)
Definition assign (key : jsstring) (v : value) (p : Page) : Page :=
  if bool_decide (key = js "__proto__") then
    if typeof_object v
    then mkPage (lines p) (input p) (node_modules p) (Some v) (saved p) (timers p)
    else p
  else mkPage (lines p) (input p) (<[key := v]> (node_modules p))
              (node_modules_proto p) (saved p) (timers p).

(** [AuraSystem.saveVFS()]; local storage takes the write. *)
Definition saveVFS (p : Page) : Page :=
  mkPage (lines p) (input p) (node_modules p) (node_modules_proto p)
         (Some (node_modules p)) (timers p).

(** [handleGit(action, args)]. [now_name] and [now_clone] are the clock
    at the two places that read it. No step of the [try] block throws. *)
Definition handleGit (now_name now_clone : Z) (action : value)
    (args : list jsstring) (p : Page) : Page :=
  if negb (strict_eq_string action (js "clone")) then
    print (js "git: Unsupported action " ++ ToString action) (js "error") p
  else
    match args with
    | [] | [] :: _ => print (js "git: No repository provided") (js "error") p
    | repo :: _ =>
        let name :=
          match strip_git (pop (split 47 repo)) with
          | [] => js "repo-" ++ show_Z now_name
          | seg => seg
          end in
        print (js "git: " ++ name ++ js " mapped into vfs.node_modules." ++ name)
              (js "success")
              (saveVFS
                 (assign name
                    (VObj [(js "repo", VStr repo); (js "cloned_at", VNum now_clone)])
                    p))
    end.

(** [handleInstall(mgr, pkg)]: one line now, the rest in 500 ms. *)
Definition handleInstall (mgr : jsstring) (pkg : value) (p : Page) : Page :=
  let p := print (mgr ++ js ": Resolving " ++ ToString pkg ++ js " dependencies...")
                 (js "info") p in
  mkPage (lines p) (input p) (node_modules p) (node_modules_proto p) (saved p)
         (timers p ++ [(500%Z, mgr, pkg)]).

(** The callback that [handleInstall] hands to [setTimeout]. *)
Definition install_done (mgr : jsstring) (pkg : value) (p : Page) : Page :=
  print (mgr ++ js ": " ++ ToString pkg ++ js " synchronized.") (js "success")
        (saveVFS (assign (ToString pkg) (VStr (js "cached")) p)).

(** [executeCommand(e)] for a key event with [e.key = key]. *)
Definition executeCommand (now_name now_clone : Z) (key : jsstring) (p : Page)
  : Page * option call :=
  if bool_decide (key = js "Enter") then
    let cmdLine := trim (input p) in
    let p := mkPage (lines p) [] (node_modules p) (node_modules_proto p)
                    (saved p) (timers p) in
    match cmdLine with
    | [] => (p, None)
    | _ :: _ =>
        let p := print cmdLine (js "cmd") p in
        let words := split 32 cmdLine in
        let base := hd [] words in
        let action := match words with
                      | _ :: a :: _ => VStr a
                      | _ => VUndef
                      end in
        let args := skipn 2 words in
        let arg0 := match args with
                    | a :: _ => VStr a
                    | [] => VUndef
                    end in
        if bool_decide (base = js "pip") && strict_eq_string action (js "install")
        then (p, Some (HandlePip arg0))
        else if bool_decide (base = js "git")
        then (handleGit now_name now_clone action args p, None)
        else if existsb (fun m => bool_decide (base = m))
                        [js "npm"; js "yarn"; js "apt"; js "winget"]
        then (handleInstall base arg0 p, None)
        else if bool_decide (base = js "wget") then (p, Some (HandleWget action))
        else if bool_decide (base = js "clear") then (clear p, None)
        else (print (js "Unknown command: " ++ base) (js "error") p, None)
    end
  else (p, None).

End AuraTerminal.

(** ** Vocabulary of the properties *)

(** The world after the events [evs], the store and Pyodide untouched. *)
Definition add_events (evs : list event) (w : World) : World :=
  mkWorld (log w ++ evs) (execution_results w) (pyodide w).

(** A computation that only appends to the log. *)
Definition logs_only {A} (m : M A) : Prop :=
  forall w, exists o evs, m w = (o, add_events evs w).

(** The result literal [{ success: false, error: err }]. *)
Definition failure (err : value) : NodeResult :=
  mkResult false VUndef VUndef VUndef err.

(** [`No available ${lang} node ports`], the error of the final failure. *)
Definition no_ports_error (lang : jsstring) : jsstring :=
  js "No available " ++ lang ++ js " node ports".

(** The requests of a dispatch that tries [ports] one after the other,
    the first with attempt number 1. *)
Definition requests_for (path : jsstring) (payload : Payload) (ports : list Z)
  : list event :=
  imap (fun i port => Fetch (AuraComm.url_of port path) payload
                            (AuraComm.timeout_of (S i))) ports.

(** The candidate endpoints of an engine: the URLs that the loop of
    [dispatch] walks through, in order. *)
Definition candidate_urls (nodes : gmap jsstring (list Z)) (lang : jsstring)
  : option (list jsstring) :=
  match AuraComm.lookup_ports nodes lang with
  | AuraComm.Ports ports =>
      Some (List.map (fun port => AuraComm.url_of port (AuraComm.path_of lang)) ports)
  | _ => None
  end.

(** [needle] occurs in [hay]. *)
Fixpoint starts_with (needle hay : jsstring) : bool :=
  match needle, hay with
  | [], _ => true
  | c :: needle', d :: hay' => (c =? d) && starts_with needle' hay'
  | _ :: _, [] => false
  end.

Fixpoint contains (needle hay : jsstring) : bool :=
  starts_with needle hay
  || match hay with
     | [] => false
     | _ :: hay' => contains needle hay'
     end.

(** What [handleResponse] returns for a body; it does not depend on the
    world (lemma [handleResponse_result]). *)
Definition normalized (data : value) : option NodeResult :=
  match fst (AuraComm.handleResponse data (mkWorld [] ∅ false)) with
  | Ret r => r
  | Throw _ => None
  end.

(** "Success if and only if the exit code equals zero", for one body. *)
Definition success_iff_exit_code_zero (data : value) : Prop :=
  exists r, normalized data = Some r
            /\ (success r = true <-> get data (js "exit_code") = VNum 0).

(** The error of a failed result names the engine and the number [n]. *)
Definition error_names_engine_and_count (r : NodeResult) (lang : jsstring)
    (n : nat) : Prop :=
  exists e, error r = VStr e
            /\ contains lang e = true
            /\ contains (show_Z (Z.of_nat n)) e = true.

(** "The failure for an empty candidate list has a kind of its own": what
    [dispatch] returns for an engine without ports differs from what it
    returns after every port of the engine has failed. *)
Definition no_endpoints_kind (env : Env) (lang source : jsstring) (w : World)
  : Prop :=
  fst (AuraComm.dispatch env (<[lang := []]> AuraComm.nodes) lang source w)
  <> fst (AuraComm.dispatch env AuraComm.nodes lang source w).

(** The world in which [execute] calls [dispatch] after a cache miss. *)
Definition before_dispatch (engine : jsstring) (w : World) : World :=
  add_events
    (Print (js "Offloading " ++ toUpperCase engine
              ++ js " to background thread...") (js "info")
     :: if bool_decide (engine = js "python") then []
        else [Print (js "Bridge: Payload " ++ engine
                       ++ js " optimized. Dispatching...") (js "dim")])
    w.

(** What [execute] puts in the store after a miss and the line it prints
    last, by the outcome of [dispatch]. For python: the output of a
    successful result, which is shown when it converts to a string;
    otherwise the Pyodide fallback runs, and nothing is decided here. For
    the bridge engines: the summary of a successful result whose exit code,
    output and latency convert to strings, printed with its latency, and
    the fallback text in every other case: a result that does not convert,
    a failed result, [undefined] or an exception. *)
Definition entry_after_miss (engine : jsstring)
    (o : outcome (option NodeResult)) : option (value * jsstring) :=
  if bool_decide (engine = js "python") then
    match o with
    | Ret (Some r) =>
        if success r
        then let out := nullish (output r) (nullish (stdout r) (VStr [])) in
             Some (out, ToString out)
        else None
    | _ => None
    end
  else
    match o with
    | Ret (Some r) =>
        if success r
           && converts (nullish (exit_code r) (VNum 0))
           && converts (nullish (output r) (nullish (stdout r) (VStr [])))
           && converts (nullish (latency_ms r) (VNum 0))
        then Some (VStr (AuraRunner.summary_of engine r),
                   AuraRunner.summary_of engine r ++ js " ["
                     ++ ToString (nullish (latency_ms r) (VNum 0)) ++ js "ms]")
        else Some (VStr (AuraRunner.fallback_of engine),
                   AuraRunner.fallback_of engine)
    | _ => Some (VStr (AuraRunner.fallback_of engine),
                 AuraRunner.fallback_of engine)
    end.


(** What a call does that finds the truthy value [v] under its key: one
    line, then the value when it converts to a string, and the TypeError
    when it does not. *)
Definition cache_hit (v : value) (w : World) : outcome unit * World :=
  if converts v
  then (Ret tt,
        add_events [Print (js "Result retrieved from local cache (0ms).")
                          (js "info");
                    Print (ToString v) (js "success")] w)
  else (Throw not_primitive,
        add_events [Print (js "Result retrieved from local cache (0ms).")
                          (js "info")] w).


(** "After a miss the store holds the result that the dispatcher
    returned." *)
Definition stores_dispatcher_result (env : Env) (nodes : gmap jsstring (list Z))
    (engine code : jsstring) (w : World) : Prop :=
  exists r,
    fst (AuraComm.dispatch env nodes engine code (before_dispatch engine w))
      = Ret (Some r)
    /\ execution_results (snd (AuraRunner.execute env nodes (Some engine) code w))
         !! AuraRunner.codeHash code engine
       = Some (result_value r).

(** ** Example surroundings *)

(** No node listens anywhere; Pyodide loads and runs code to [undefined]. *)
Definition env_down : Env :=
  mkEnv (fun _ => 0%Z) (fun _ => js "123e4567-e89b-12d3-a456-426614174000")
        (fun _ _ _ => Unreachable (js "Failed to fetch"))
        (js "The user aborted a request.")
        (fun _ => None) (fun _ => None) (fun _ _ => PyUndefined).

(** Only port 55003 listens, and it answers
    [{stdout: "1", exit_code: 0, latency_ms: 12}] after 5 ms. *)
Definition env_55003 : Env :=
  mkEnv (fun _ => 0%Z) (fun _ => js "123e4567-e89b-12d3-a456-426614174000")
        (fun _ url _ =>
           if bool_decide (url = js "http://localhost:55003/execute")
           then Reply 5 200
                  (inl (VObj [(js "stdout", VStr (js "1"));
                              (js "exit_code", VNum 0);
                              (js "latency_ms", VNum 12)]))
           else Unreachable (js "Failed to fetch"))
        (js "The user aborted a request.")
        (fun _ => None) (fun _ => None) (fun _ _ => PyUndefined).

(** Every port answers [{stdout: {toString: 1}, exit_code: 0}] after 5 ms,
    and code raises in Pyodide. *)
Definition env_unprintable : Env :=
  mkEnv (fun _ => 0%Z) (fun _ => js "123e4567-e89b-12d3-a456-426614174000")
        (fun _ _ _ =>
           Reply 5 200
             (inl (VObj [(js "stdout", VObj [(js "toString", VNum 1)]);
                         (js "exit_code", VNum 0)])))
        (js "The user aborted a request.")
        (fun _ => None) (fun _ => None) (fun _ _ => PyRaise (js "NameError")).

(** A freshly mounted page: empty terminal, empty store, no Pyodide. *)
Definition fresh : World := mkWorld [] ∅ false.

(** An [AuraComm] reconfigured so that the cpp node has no port. *)
Definition nodes_without_cpp_ports : gmap jsstring (list Z) :=
  <[js "cpp" := []]> AuraComm.nodes.

(** ** Vocabulary of the further properties *)

(** The waits among the events [l], in milliseconds. *)
Definition waits (l : list event) : list Z :=
  omap (fun e => match e with Delay ms => Some ms | _ => None end) l.

(** A computation that appends to the log, writes the store at most under
    [key], and never unloads Pyodide. *)
Definition touches_only {A} (key : jsstring) (m : M A) : Prop :=
  forall w, exists o evs store' loaded,
    m w = (o, mkWorld (log w ++ evs) store' loaded)
    /\ (forall k, k <> key -> store' !! k = execution_results w !! k)
    /\ (pyodide w = true -> loaded = true).

(** A string free of white space, and a word of a command line: such a
    string that is not empty. *)
Definition spaceless (s : jsstring) : Prop :=
  Forall (fun c => is_whitespace c = false) s.

Definition word (s : jsstring) : Prop := s <> [] /\ spaceless s.

(** The entry that [handleGit] writes for a repository. *)
Definition clone_entry (repo : jsstring) (cloned_at : Z) : value :=
  VObj [(js "repo", VStr repo); (js "cloned_at", VNum cloned_at)].

(** Words joined by single spaces. *)
Fixpoint command_line (words : list jsstring) : jsstring :=
  match words with
  | [] => []
  | w :: rest =>
      match rest with
      | [] => w
      | _ :: _ => w ++ 32 :: command_line rest
      end
  end.

(** The four managers that [executeCommand] hands to [handleInstall]. *)
Definition managers : list jsstring :=
  [js "npm"; js "yarn"; js "apt"; js "winget"].

(** A page with an empty terminal and an empty VFS. *)
Definition blank_page (typed : jsstring) : AuraTerminal.Page :=
  AuraTerminal.mkPage [] typed ∅ None None [].

(** * Properties *)

(** ** The monad *)

Lemma add_events_nil w : add_events [] w = w.
Proof. destruct w; unfold add_events; simpl. by rewrite app_nil_r. Qed.

Lemma add_events_app evs1 evs2 w :
  add_events evs2 (add_events evs1 w) = add_events (evs1 ++ evs2) w.
Proof. unfold add_events; simpl. by rewrite app_assoc. Qed.

Lemma bind_run {A B} (m : M A) (f : A -> M B) w :
  (m ≫= f) w = match m w with
               | (Ret a, w') => f a w'
               | (Throw e, w') => (Throw e, w')
               end.
Proof. reflexivity. Qed.

Lemma ret_run {A} (a : A) w : (mret a : M A) w = (Ret a, w).
Proof. reflexivity. Qed.

Lemma emit_run e w : emit e w = (Ret tt, add_events [e] w).
Proof. reflexivity. Qed.

Lemma print_run msg ty w : print msg ty w = (Ret tt, add_events [Print msg ty] w).
Proof. reflexivity. Qed.

Lemma string_of_run v w :
  string_of v w
  = if converts v then (Ret (ToString v), w) else (Throw not_primitive, w).
Proof. unfold string_of. by destruct (converts v). Qed.

Lemma number_of_run v w :
  number_of v w
  = if converts v then (Ret (Number v), w) else (Throw not_primitive, w).
Proof. unfold number_of. by destruct (converts v). Qed.

Lemma print_value_run v ty w :
  print_value v ty w
  = if converts v then (Ret tt, add_events [Print (ToString v) ty] w)
    else (Throw not_primitive, w).
Proof.
  unfold print_value. rewrite bind_run, string_of_run.
  by destruct (converts v).
Qed.

(** Runs the binds, prints and returns at the head of a computation. *)
Ltac mrun :=
  repeat (first [rewrite bind_run | rewrite print_run | rewrite emit_run
                | rewrite ret_run];
          cbv beta iota).

(** Runs a computation to its end, by cases on every test it makes. *)
Ltac mcases :=
  repeat (first [ rewrite bind_run | rewrite print_run | rewrite emit_run
                | rewrite ret_run | rewrite string_of_run
                | rewrite number_of_run
                | match goal with
                  | |- context [if ?b then _ else _] => destruct b eqn:?
                  end ];
          cbv beta iota).

Lemma requests_app l1 l2 : requests (l1 ++ l2) = requests l1 ++ requests l2.
Proof. apply List.filter_app. Qed.

Lemma logs_only_ret {A} (a : A) : logs_only (mret a : M A).
Proof. intros w. exists (Ret a), []. by rewrite add_events_nil. Qed.

Lemma logs_only_throw {A} e : logs_only (throw e : M A).
Proof. intros w. exists (Throw e), []. by rewrite add_events_nil. Qed.

Lemma logs_only_emit e : logs_only (emit e).
Proof. intros w. by exists (Ret tt), [e]. Qed.

Lemma logs_only_print msg ty : logs_only (print msg ty).
Proof. apply logs_only_emit. Qed.

Lemma logs_only_clock : logs_only clock.
Proof. intros w. exists (Ret (length (log w))), []. by rewrite add_events_nil. Qed.

Lemma logs_only_request_count : logs_only request_count.
Proof.
  intros w. exists (Ret (length (requests (log w)))), [].
  by rewrite add_events_nil.
Qed.

Lemma logs_only_bind {A B} (m : M A) (f : A -> M B) :
  logs_only m -> (forall a, logs_only (f a)) -> logs_only (m ≫= f).
Proof.
  intros Hm Hf w. rewrite bind_run.
  destruct (Hm w) as (o & evs & ->). destruct o as [a|e].
  - destruct (Hf a (add_events evs w)) as (o' & evs' & ->).
    exists o', (evs ++ evs'). by rewrite add_events_app.
  - by exists (Throw e), evs.
Qed.

Lemma logs_only_try {A} (m : M A) (h : jsstring -> M A) :
  logs_only m -> (forall e, logs_only (h e)) -> logs_only (try_catch m h).
Proof.
  intros Hm Hh w. unfold try_catch.
  destruct (Hm w) as (o & evs & ->). destruct o as [a|e].
  - by exists (Ret a), evs.
  - destruct (Hh e (add_events evs w)) as (o' & evs' & ->).
    exists o', (evs ++ evs'). by rewrite add_events_app.
Qed.

Lemma logs_only_string_of v : logs_only (string_of v).
Proof.
  unfold string_of. destruct (converts v);
    [apply logs_only_ret|apply logs_only_throw].
Qed.

Lemma logs_only_number_of v : logs_only (number_of v).
Proof.
  unfold number_of. destruct (converts v);
    [apply logs_only_ret|apply logs_only_throw].
Qed.

Lemma logs_only_print_value v ty : logs_only (print_value v ty).
Proof.
  apply logs_only_bind; [apply logs_only_string_of|intros text].
  apply logs_only_print.
Qed.

Create HintDb logs.

#[local] Hint Resolve logs_only_ret logs_only_throw logs_only_emit
  logs_only_print logs_only_clock logs_only_request_count
  logs_only_string_of logs_only_number_of logs_only_print_value : logs.

Ltac logs_only_tac :=
  repeat first
    [ apply logs_only_bind; [|intros ?]
    | apply logs_only_try; [|intros ?]
    | solve [auto with logs]
    | match goal with
      | |- logs_only (if ?b then _ else _) => destruct b
      | |- logs_only (match ?x with _ => _ end) => destruct x
      end ].

(** ** AuraComm *)

Section CommProperties.

Variable env : Env.

Lemma logs_only_tryPost url body timeout :
  logs_only (AuraComm.tryPost env url body timeout).
Proof. unfold AuraComm.tryPost. logs_only_tac. Qed.

Lemma logs_only_handleResponse data :
  logs_only (AuraComm.handleResponse data).
Proof. unfold AuraComm.handleResponse. logs_only_tac. Qed.

Lemma logs_only_probe lang path payload total ports attempt :
  logs_only (AuraComm.probe env lang path payload total ports attempt).
Proof.
  revert attempt. induction ports as [|port rest IH]; intros attempt; simpl.
  - logs_only_tac.
  - apply logs_only_bind; [auto with logs|intros _].
    apply logs_only_try.
    + apply logs_only_bind; [apply logs_only_tryPost|].
      intros data. apply logs_only_handleResponse.
    + intros err. do 2 (apply logs_only_bind; [auto with logs|intros _]).
      apply IH.
Qed.

Lemma logs_only_dispatch nodes lang source :
  logs_only (AuraComm.dispatch env nodes lang source).
Proof.
  unfold AuraComm.dispatch.
  apply logs_only_bind; [auto with logs|intros t].
  destruct (btoa source) as [b64|]; [|auto with logs].
  apply logs_only_bind; [auto with logs|intros _].
  destruct (AuraComm.lookup_ports nodes lang).
  - apply logs_only_bind; [auto with logs|intros _]. apply logs_only_probe.
  - logs_only_tac.
  - auto with logs.
Qed.

(** One POST: the request is logged, then the node's answer decides. *)
Lemma tryPost_run url body timeout w :
  AuraComm.tryPost env url body timeout w =
  match AuraComm.attempt_outcome env (length (requests (log w))) url body timeout with
  | inl data => (Ret data, add_events [Fetch url body timeout] w)
  | inr msg => (Throw msg, add_events [Fetch url body timeout] w)
  end.
Proof.
  unfold AuraComm.tryPost. rewrite bind_run. cbn [request_count].
  rewrite bind_run, emit_run.
  by destruct (AuraComm.attempt_outcome _ _ _ _ _).
Qed.

(** [handleResponse] never throws, and it only prints. *)
Lemma handleResponse_returns data w :
  exists r evs, AuraComm.handleResponse data w = (Ret r, add_events evs w)
                /\ requests evs = [].
Proof.
  unfold AuraComm.handleResponse, try_catch. mcases;
    try (eexists _, [_]; split; reflexivity).
  exists None, []. by rewrite add_events_nil.
Qed.

(** The loop when every port fails: one request per port, in order, then
    the final failure. *)
Lemma probe_exhausted lang path payload total ports : forall attempt w,
  (forall i port, ports !! i = Some port ->
     exists e, AuraComm.attempt_outcome env (length (requests (log w)) + i)
                 (AuraComm.url_of port path) payload
                 (AuraComm.timeout_of (S (attempt + i))) = inr e) ->
  exists evs,
    AuraComm.probe env lang path payload total ports attempt w =
      (Ret (Some (failure (VStr (no_ports_error lang)))), add_events evs w)
    /\ requests evs =
         imap (fun i port => Fetch (AuraComm.url_of port path) payload
                               (AuraComm.timeout_of (S (attempt + i)))) ports
    /\ last evs =
         Some (Print (js "Comm Error: All " ++ show_Z (Z.of_nat total)
                        ++ js " ports failed for " ++ toUpperCase lang)
                     (js "error")).
Proof.
  induction ports as [|port rest IH]; intros attempt w Hfail.
  - eexists [_]. cbn [AuraComm.probe]. rewrite bind_run, print_run, ret_run.
    done.
  - destruct (Hfail 0%nat port eq_refl) as [e He].
    rewrite Nat.add_0_r in He. rewrite Nat.add_0_r in He.
    cbn [AuraComm.probe]. rewrite bind_run, print_run.
    unfold try_catch. rewrite bind_run, tryPost_run.
    cbn [add_events log]. rewrite requests_app, app_nil_r, He.
    mrun. rewrite !add_events_app.
    destruct (IH (S attempt)
                (add_events ([Print (js "Comm: Attempt "
                                ++ show_Z (Z.of_nat (S attempt)) ++ js " -> "
                                ++ AuraComm.url_of port path) (js "dim")]
                             ++ [Fetch (AuraComm.url_of port path) payload
                                   (AuraComm.timeout_of (S attempt))]
                             ++ [Print (js "Comm: Port " ++ show_Z port
                                          ++ js " failed (" ++ e ++ js ").")
                                       (js "dim")]
                             ++ [Delay (AuraComm.backoff_of (S attempt))]) w))
      as (evs & Hrun & Hreq & Hlast).
    { intros i p Hp. cbn [add_events log]. rewrite requests_app.
      cbn [requests List.filter is_fetch app]. rewrite length_app.
      cbn [length]. replace (length (requests (log w)) + 1 + i)%nat
        with (length (requests (log w)) + S i)%nat by lia.
      replace (S attempt + i)%nat with (attempt + S i)%nat by lia.
      by apply Hfail. }
    eexists. split; [|split].
    + rewrite Hrun, add_events_app. reflexivity.
    + rewrite requests_app, Hreq. cbn [requests List.filter is_fetch app].
      rewrite imap_cons, Nat.add_0_r. f_equal.
      apply imap_ext. intros i p _. cbn. do 2 f_equal. lia.
    + rewrite last_app, Hlast. done.
Qed.

(** The loop when the port at index [k] is the first to answer: the ports
    before it are tried and fail, the body goes to [handleResponse], and no
    port after it is tried. *)
Lemma probe_first_success lang path payload total body : forall k ports port attempt w,
  ports !! k = Some port ->
  (forall i p, (i < k)%nat -> ports !! i = Some p ->
     exists e, AuraComm.attempt_outcome env (length (requests (log w)) + i)
                 (AuraComm.url_of p path) payload
                 (AuraComm.timeout_of (S (attempt + i))) = inr e) ->
  AuraComm.attempt_outcome env (length (requests (log w)) + k)
    (AuraComm.url_of port path) payload
    (AuraComm.timeout_of (S (attempt + k))) = inl body ->
  exists evs,
    AuraComm.probe env lang path payload total ports attempt w =
      AuraComm.handleResponse body (add_events evs w)
    /\ requests evs =
         imap (fun i p => Fetch (AuraComm.url_of p path) payload
                            (AuraComm.timeout_of (S (attempt + i))))
              (take (S k) ports).
Proof.
  induction k as [|k IH]; intros ports port attempt w Hk Hfail Hok.
  - destruct ports as [|p rest]; [done|]. injection Hk as ->.
    rewrite !Nat.add_0_r in Hok.
    cbn [AuraComm.probe]. rewrite bind_run, print_run.
    unfold try_catch. rewrite bind_run, tryPost_run.
    cbn [add_events log]. rewrite requests_app, app_nil_r, Hok.
    rewrite add_events_app.
    destruct (handleResponse_returns body
                (add_events ([Print (js "Comm: Attempt "
                                ++ show_Z (Z.of_nat (S attempt)) ++ js " -> "
                                ++ AuraComm.url_of port path) (js "dim")]
                             ++ [Fetch (AuraComm.url_of port path) payload
                                   (AuraComm.timeout_of (S attempt))]) w))
      as (r & evs & Hr & _).
    match goal with
    | |- context [AuraComm.handleResponse body (add_events ?l w)] => exists l
    end.
    split.
    + by rewrite Hr.
    + cbn. by rewrite Nat.add_0_r.
  - destruct ports as [|p rest]; [done|]. cbn in Hk.
    destruct (Hfail 0%nat p ltac:(lia) eq_refl) as [e He].
    rewrite !Nat.add_0_r in He.
    cbn [AuraComm.probe]. rewrite bind_run, print_run.
    unfold try_catch. rewrite bind_run, tryPost_run.
    cbn [add_events log]. rewrite requests_app, app_nil_r, He.
    mrun. rewrite !add_events_app.
    destruct (IH rest port (S attempt)
                (add_events ([Print (js "Comm: Attempt "
                                ++ show_Z (Z.of_nat (S attempt)) ++ js " -> "
                                ++ AuraComm.url_of p path) (js "dim")]
                             ++ [Fetch (AuraComm.url_of p path) payload
                                   (AuraComm.timeout_of (S attempt))]
                             ++ [Print (js "Comm: Port " ++ show_Z p
                                          ++ js " failed (" ++ e ++ js ").")
                                       (js "dim")]
                             ++ [Delay (AuraComm.backoff_of (S attempt))]) w)
                Hk)
      as (evs & Hrun & Hreq).
    { intros i q Hi Hq. cbn [add_events log]. rewrite requests_app.
      cbn [requests List.filter is_fetch app]. rewrite length_app.
      cbn [length]. replace (length (requests (log w)) + 1 + i)%nat
        with (length (requests (log w)) + S i)%nat by lia.
      replace (S attempt + i)%nat with (attempt + S i)%nat by lia.
      apply Hfail; [lia|done]. }
    { cbn [add_events log]. rewrite requests_app.
      cbn [requests List.filter is_fetch app]. rewrite length_app.
      cbn [length]. replace (length (requests (log w)) + 1 + k)%nat
        with (length (requests (log w)) + S k)%nat by lia.
      replace (S attempt + k)%nat with (attempt + S k)%nat by lia.
      done. }
    eexists. split.
    + rewrite Hrun, add_events_app. reflexivity.
    + rewrite requests_app, Hreq. cbn [requests List.filter is_fetch app].
      rewrite firstn_cons, imap_cons, Nat.add_0_r. f_equal.
      apply imap_ext. intros i q _. cbn. do 2 f_equal. lia.
Qed.

(** [handleResponse] computes its result from the body alone. *)
Lemma handleResponse_result data w w' :
  fst (AuraComm.handleResponse data w) = fst (AuraComm.handleResponse data w').
Proof.
  unfold AuraComm.handleResponse, try_catch. mcases; reflexivity.
Qed.

(** [dispatch] with an encodable source and an array of ports: two lines
    on the terminal, then the loop from attempt 0. *)
Lemma dispatch_ports_run nodes lang source b64 ports w :
  btoa source = Some b64 ->
  AuraComm.lookup_ports nodes lang = AuraComm.Ports ports ->
  AuraComm.dispatch env nodes lang source w =
  AuraComm.probe env lang (AuraComm.path_of lang)
    (AuraComm.payload_of env (length (log w)) lang b64) (length ports) ports 0
    (add_events
       [Print (js "Comm: Payload "
                 ++ substring0 8 (id (AuraComm.payload_of env (length (log w)) lang b64))
                 ++ js " generated.") (js "dim");
        Print (js "Comm: Trying " ++ show_Z (Z.of_nat (length ports))
                 ++ js " ports for " ++ toUpperCase lang ++ js " node...")
              (js "info")] w).
Proof.
  intros Hb Hl. unfold AuraComm.dispatch. rewrite bind_run. cbn [clock].
  rewrite Hb. mrun. rewrite Hl. mrun. by rewrite add_events_app.
Qed.

End CommProperties.

(** C6, as the code has it. When the candidate list of an engine is empty,
    [dispatch] of an encodable source returns a failed result at once:
    three lines on the terminal, the last of them the line of the
    exhausted loop for 0 ports, no request, no wait. The error is the one
    of the exhausted loop. *)
Theorem dispatch_no_candidates env nodes lang source b64 w :
  btoa source = Some b64 ->
  AuraComm.lookup_ports nodes lang = AuraComm.Ports [] ->
  exists evs,
    AuraComm.dispatch env nodes lang source w =
      (Ret (Some (failure (VStr (no_ports_error lang)))), add_events evs w)
    /\ requests evs = []
    /\ Forall (fun e => exists msg ty, e = Print msg ty) evs
    /\ last evs
       = Some (Print (js "Comm Error: All 0 ports failed for " ++ toUpperCase lang)
                     (js "error")).
Proof.
  intros Hb Hl. rewrite (dispatch_ports_run env _ _ _ _ _ _ Hb Hl).
  cbn [AuraComm.probe]. mrun. rewrite add_events_app.
  eexists. split; [reflexivity|]. split; [reflexivity|].
  split; [repeat constructor; eauto|reflexivity].
Qed.

Lemma dispatch_no_candidates_witness :
  exists evs,
    AuraComm.dispatch env_down nodes_without_cpp_ports (js "cpp") (js "x") fresh =
      (Ret (Some (failure (VStr (no_ports_error (js "cpp"))))), add_events evs fresh)
    /\ requests evs = []
    /\ Forall (fun e => exists msg ty, e = Print msg ty) evs
    /\ last evs
       = Some (Print (js "Comm Error: All 0 ports failed for CPP") (js "error")).
Proof.
  apply (dispatch_no_candidates env_down nodes_without_cpp_ports (js "cpp")
           (js "x") (js "eA==")); vm_compute; reflexivity.
Defined.

(** C6 as stated fails: the code has no kind of failure for an empty
    candidate list. With no node listening, [dispatch] for cpp returns the
    same result whether cpp has no ports or ten ports that all fail. *)
Lemma no_candidates_like_exhaustion :
  ~ no_endpoints_kind env_down (js "cpp") (js "x") fresh.
Proof. intros Hkind. apply Hkind. vm_compute. reflexivity. Qed.

(** C4. When every candidate of an engine fails, [dispatch] of an
    encodable source makes exactly one request per candidate, in order,
    the attempt numbered [n] with timeout [4000 + 500 n], and then returns
    the single failed result whose error names the engine; the number of
    ports appears on the terminal, not in the error. *)
Theorem dispatch_all_candidates_fail env nodes lang source b64 ports w :
  btoa source = Some b64 ->
  AuraComm.lookup_ports nodes lang = AuraComm.Ports ports ->
  (forall i port, ports !! i = Some port ->
     exists e, AuraComm.attempt_outcome env (length (requests (log w)) + i)
                 (AuraComm.url_of port (AuraComm.path_of lang))
                 (AuraComm.payload_of env (length (log w)) lang b64)
                 (AuraComm.timeout_of (S i)) = inr e) ->
  exists evs,
    AuraComm.dispatch env nodes lang source w =
      (Ret (Some (failure (VStr (js "No available " ++ lang ++ js " node ports")))),
       add_events evs w)
    /\ requests evs =
         requests_for (AuraComm.path_of lang)
           (AuraComm.payload_of env (length (log w)) lang b64) ports
    /\ length (requests evs) = length ports
    /\ (forall n, (4000 < AuraComm.timeout_of (S n))%Z
                  /\ AuraComm.timeout_of (S (S n))
                     = (AuraComm.timeout_of (S n) + 500)%Z)
    /\ last evs =
         Some (Print (js "Comm Error: All " ++ show_Z (Z.of_nat (length ports))
                        ++ js " ports failed for " ++ toUpperCase lang)
                     (js "error")).
Proof.
  intros Hb Hl Hfail. rewrite (dispatch_ports_run env _ _ _ _ _ _ Hb Hl).
  match goal with
  | |- context [AuraComm.probe _ _ _ _ _ _ _ ?w0] =>
      destruct (probe_exhausted env lang (AuraComm.path_of lang)
                  (AuraComm.payload_of env (length (log w)) lang b64)
                  (length ports) ports 0 w0) as (evs & Hrun & Hreq & Hlast)
  end.
  { intros i port Hp. cbn [add_events log]. rewrite requests_app, app_nil_r.
    by apply Hfail. }
  rewrite Hrun, add_events_app. eexists. split; [reflexivity|].
  rewrite requests_app. cbn [requests List.filter is_fetch app].
  split; [exact Hreq|]. split.
  { rewrite Hreq. apply length_imap. }
  split.
  { intros n. unfold AuraComm.timeout_of. lia. }
  destruct evs as [|e0 evs0]; [done|]. by rewrite 2!last_cons_cons.
Qed.

Lemma dispatch_all_candidates_fail_witness :
  exists evs,
    AuraComm.dispatch env_down AuraComm.nodes (js "cpp") (js "x") fresh =
      (Ret (Some (failure (VStr (js "No available cpp node ports")))),
       add_events evs fresh)
    /\ length (requests evs) = 10%nat.
Proof.
  destruct (dispatch_all_candidates_fail env_down AuraComm.nodes (js "cpp")
              (js "x") (js "eA==") (AuraComm.port_range 56000) fresh)
    as (evs & Hrun & _ & Hlen & _).
  - vm_compute; reflexivity.
  - vm_compute; reflexivity.
  - intros i port _. eexists. reflexivity.
  - exists evs. split; [exact Hrun | exact Hlen].
Defined.

(** C5. When the candidate at index [k] is the first to answer with a
    parsed body, [dispatch] of an encodable source returns what
    [handleResponse] makes of that body, having made exactly [k + 1]
    requests: to the candidates up to index [k], in order, and to none
    after it. *)
Theorem dispatch_first_success_wins env nodes lang source b64 ports k port body w :
  btoa source = Some b64 ->
  AuraComm.lookup_ports nodes lang = AuraComm.Ports ports ->
  ports !! k = Some port ->
  (forall i p, (i < k)%nat -> ports !! i = Some p ->
     exists e, AuraComm.attempt_outcome env (length (requests (log w)) + i)
                 (AuraComm.url_of p (AuraComm.path_of lang))
                 (AuraComm.payload_of env (length (log w)) lang b64)
                 (AuraComm.timeout_of (S i)) = inr e) ->
  AuraComm.attempt_outcome env (length (requests (log w)) + k)
    (AuraComm.url_of port (AuraComm.path_of lang))
    (AuraComm.payload_of env (length (log w)) lang b64)
    (AuraComm.timeout_of (S k)) = inl body ->
  exists r evs,
    AuraComm.dispatch env nodes lang source w = (Ret r, add_events evs w)
    /\ (forall w', fst (AuraComm.handleResponse body w') = Ret r)
    /\ requests evs =
         requests_for (AuraComm.path_of lang)
           (AuraComm.payload_of env (length (log w)) lang b64)
           (take (S k) ports)
    /\ length (requests evs) = S k.
Proof.
  intros Hb Hl Hk Hfail Hok. rewrite (dispatch_ports_run env _ _ _ _ _ _ Hb Hl).
  match goal with
  | |- context [AuraComm.probe _ _ _ _ _ _ _ ?w0] =>
      destruct (probe_first_success env lang (AuraComm.path_of lang)
                  (AuraComm.payload_of env (length (log w)) lang b64)
                  (length ports) body k ports port 0 w0) as (evs & Hrun & Hreq);
        [exact Hk| | |]
  end.
  { intros i p Hi Hp. cbn [add_events log]. rewrite requests_app, app_nil_r.
    by apply Hfail. }
  { cbn [add_events log]. rewrite requests_app, app_nil_r. exact Hok. }
  rewrite Hrun, add_events_app.
  match goal with
  | |- context [AuraComm.handleResponse body ?w0] =>
      destruct (handleResponse_returns body w0) as (r & evs' & Hr & Hnone)
  end.
  rewrite Hr, add_events_app. exists r. eexists. split; [reflexivity|].
  split.
  { intros w'. erewrite handleResponse_result. by rewrite Hr. }
  rewrite !requests_app, Hnone, app_nil_r.
  cbn [requests List.filter is_fetch app]. split; [exact Hreq|].
  rewrite Hreq, length_imap, length_take.
  apply lookup_lt_Some in Hk. lia.
Qed.

Lemma dispatch_first_success_wins_witness :
  exists r evs,
    AuraComm.dispatch env_55003 AuraComm.nodes (js "python") (js "print(1)") fresh
      = (Ret r, add_events evs fresh)
    /\ r = Some (mkResult true (VStr (js "1")) (VNum 0) (VNum 12) VUndef)
    /\ length (requests evs) = 4%nat.
Proof.
  destruct (dispatch_first_success_wins env_55003 AuraComm.nodes (js "python")
              (js "print(1)") (js "cHJpbnQoMSk=") (AuraComm.port_range 55000)
              3 55003%Z
              (VObj [(js "stdout", VStr (js "1")); (js "exit_code", VNum 0);
                     (js "latency_ms", VNum 12)]) fresh)
    as (r & evs & Hrun & Hres & _ & Hlen).
  - vm_compute; reflexivity.
  - vm_compute; reflexivity.
  - vm_compute; reflexivity.
  - intros i p Hi Hp.
    destruct i as [|[|[|i]]]; [| | |lia]; injection Hp as <-;
      eexists; vm_compute; reflexivity.
  - vm_compute; reflexivity.
  - exists r, evs. split; [exact Hrun|]. split; [|exact Hlen].
    specialize (Hres fresh). vm_compute in Hres. injection Hres as <-.
    vm_compute; reflexivity.
Defined.

(** C4 as stated fails on the count: with no node listening, the failed
    result for cpp after ten attempts has the error
    ['No available cpp node ports'], in which no 10 occurs. *)
Lemma exhausted_error_omits_count :
  exists r,
    fst (AuraComm.dispatch env_down AuraComm.nodes (js "cpp") (js "x") fresh)
      = Ret (Some r)
    /\ ~ error_names_engine_and_count r (js "cpp") 10.
Proof.
  eexists. split; [vm_compute; reflexivity|].
  intros (e & He & _ & Hcount). vm_compute in He. injection He as <-.
  vm_compute in Hcount. discriminate.
Qed.

(** ** The normaliser, [handleResponse] *)

Lemma has_object data k : has data k = true -> exists fields, data = VObj fields.
Proof. destruct data; try discriminate. eauto. Qed.

Lemma get_absent data k : has data k = false -> get data k = VUndef.
Proof.
  destruct data; try reflexivity. cbn.
  destruct (assoc k fields); [|done].
  intros H. apply bool_decide_eq_false in H. destruct H. eauto.
Qed.

(** The double made from an integer is zero exactly for 0. *)
Lemma is_zero_number_num n : is_zero (Number (VNum n)) = true <-> n = 0%Z.
Proof.
  cbn [Number is_zero]. rewrite orb_true_iff, andb_true_iff, Z.eqb_eq.
  split; [intros [H|[H _]]|by left]; [done|]. by apply Z.ltb_lt in H.
Qed.

(** C3, at the bodies where it fails. For [null], a number or a string
    the guard [data && typeof data === 'object'] is false and the function
    runs off its end: it returns [undefined] and prints nothing. *)
Theorem handleResponse_non_object_body w :
  AuraComm.handleResponse VNull w = (Ret None, w)
  /\ AuraComm.handleResponse (VNum 42) w = (Ret None, w)
  /\ AuraComm.handleResponse (VStr (js "ok")) w = (Ret None, w).
Proof. repeat split. Qed.

(** An object of no recognised shape, here [{ foo: 1 }], does give the
    failed result, with error ['Unknown node response']. *)
Example handleResponse_unrecognised_object :
  normalized (VObj [(js "foo", VNum 1)])
  = Some (failure (VStr (js "Unknown node response"))).
Proof. reflexivity. Qed.

(** Exit code 0 is a success and exit code 1 is not. *)
Example handleResponse_exit_codes :
  normalized (VObj [(js "stdout", VStr (js "1")); (js "exit_code", VNum 0);
                    (js "latency_ms", VNum 12)])
  = Some (mkResult true (VStr (js "1")) (VNum 0) (VNum 12) VUndef)
  /\ normalized (VObj [(js "stdout", VStr (js "")); (js "exit_code", VNum 1)])
    = Some (mkResult false (VStr (js "")) (VNum 1) (VNum 0) VUndef).
Proof. split; reflexivity. Qed.

(** What [Number(_) === 0] makes of exit codes that are not numbers. *)
Example number_is_zero_examples :
  List.map (fun v => is_zero (Number v))
           [VNull; VBool false; VStr (js ""); VStr (js "0"); VStr (js " 0.0 ");
            VArr []; VUndef; VBool true; VStr (js "abc"); VStr (js "1");
            VObj []]
  = [true; true; true; true; true; true; false; false; false; false; false].
Proof. vm_compute; reflexivity. Qed.

(** A body [{ error: "boom" }] gives [{ success: false, error: "boom" }]. *)
Example handleResponse_error_shape :
  normalized (VObj [(js "error", VStr (js "boom"))])
  = Some (failure (VStr (js "boom"))).
Proof. reflexivity. Qed.

(** C7, as the code has it. For a body with both a [stdout] and an
    [exit_code] property, whatever other properties it has: when the exit
    code and the latency convert to a primitive, the result is
    [{ success, output, exit_code, latency_ms }] with [success] true exactly
    when [Number(exit_code)] is zero; otherwise the TypeError is caught and
    the result is a failure with its message. A numeric exit code converts,
    and its number is zero when the code is 0; [latency_ms] is 0 when the
    body has none. *)
Theorem handleResponse_standard_shape data w :
  has data (js "stdout") = true ->
  has data (js "exit_code") = true ->
  let exit := get data (js "exit_code") in
  let latency := nullish (get data (js "latency_ms")) (VNum 0) in
  AuraComm.handleResponse data w =
    (if converts exit && converts latency
     then (Ret (Some (mkResult (is_zero (Number exit)) (get data (js "stdout"))
                               exit latency VUndef)),
           add_events
             [Print (js "Node Response: [Exit " ++ ToString exit ++ js "] ["
                       ++ ToString latency ++ js "ms]")
                    (if is_zero (Number exit)
                     then js "success" else js "error")] w)
     else (Ret (Some (failure (VStr not_primitive))),
           add_events
             [Print (js "Response Parse Error: " ++ not_primitive)
                    (js "error")] w))
  /\ (forall n, exit = VNum n ->
        converts exit = true /\ (is_zero (Number exit) = true <-> n = 0%Z))
  /\ (has data (js "latency_ms") = false ->
        latency = VNum 0 /\ converts latency = true).
Proof.
  intros Hout Hexit exit latency. split; [|split].
  - destruct (has_object _ _ Hout) as [fields ->].
    unfold AuraComm.handleResponse. rewrite Hout, Hexit.
    cbn [truthy typeof_object andb]. fold exit latency.
    unfold try_catch. rewrite bind_run, number_of_run.
    destruct (converts exit) eqn:Hc; cbv beta iota; cbn [andb]; [|by mrun].
    rewrite bind_run, string_of_run, Hc. cbv beta iota.
    rewrite bind_run, string_of_run.
    destruct (converts latency); by mrun.
  - intros n ->. split; [done|]. apply is_zero_number_num.
  - intros Hlat. unfold latency. by rewrite (get_absent _ _ Hlat).
Qed.

(** A body of all three shapes at once, with exit code 1: the standard
    shape decides, and the result is a failure that carries the output. *)
Lemma handleResponse_standard_shape_witness :
  normalized (VObj [(js "status", VStr (js "success"));
                    (js "error", VStr (js "boom"));
                    (js "stdout", VStr (js "out"));
                    (js "exit_code", VNum 1)])
  = Some (mkResult false (VStr (js "out")) (VNum 1) (VNum 0) VUndef).
Proof.
  unfold normalized.
  destruct (handleResponse_standard_shape
              (VObj [(js "status", VStr (js "success"));
                     (js "error", VStr (js "boom"));
                     (js "stdout", VStr (js "out"));
                     (js "exit_code", VNum 1)])
              (mkWorld [] ∅ false)) as (Hrun & _ & _).
  - vm_compute; reflexivity.
  - vm_compute; reflexivity.
  - rewrite Hrun. vm_compute; reflexivity.
Defined.

(** C7 as stated fails at [{ stdout: "out", exit_code: null }]:
    [Number(null)] is 0, so the result is a success, and its exit code is
    [null], not zero. *)
Lemma exit_code_null_is_success :
  ~ success_iff_exit_code_zero
      (VObj [(js "stdout", VStr (js "out")); (js "exit_code", VNull)]).
Proof.
  intros (r & Hr & Hiff). vm_compute in Hr. injection Hr as <-.
  cbn in Hiff. destruct Hiff as [Hzero _]. by specialize (Hzero eq_refl).
Qed.

(** Bodies on which the [try] block throws: a latency, an exit code or an
    error that is an object with a property [toString]. The [catch] clause
    answers with the message of the TypeError. *)
Example handleResponse_parse_error :
  List.map normalized
    [VObj [(js "stdout", VStr []); (js "exit_code", VNum 0);
           (js "latency_ms", VObj [(js "toString", VNum 1)])];
     VObj [(js "stdout", VStr []);
           (js "exit_code", VObj [(js "toString", VStr (js "x"))])];
     VObj [(js "status", VStr (js "success"));
           (js "latency_ms", VArr [VObj [(js "toString", VNum 1)]])];
     VObj [(js "error", VObj [(js "toString", VNum 1)])]]
  = replicate 4 (Some (failure (VStr not_primitive))).
Proof. vm_compute; reflexivity. Qed.

(** Numbers print as doubles do. *)
Example number_texts :
  List.map (fun n => ToString (VNum n))
    [0; -12; 9007199254740993; 1152921504606846976; 10 ^ 21;
     123456789012345678901234]%Z
  = [js "0"; js "-12"; js "9007199254740992"; js "1152921504606847000";
     js "1e+21"; js "1.2345678901234569e+23"].
Proof. vm_compute; reflexivity. Qed.

(** ** The candidates of an engine *)

(** Each engine of [nodes] has ten candidates, on consecutive ports from
    its base, with [/execute] for python and [/bridge] for cpp and rust. *)
Lemma supported_engine_candidates :
  candidate_urls AuraComm.nodes (js "python")
    = Some (List.map (fun i => js "http://localhost:"
                                 ++ show_Z (55000 + Z.of_nat i) ++ js "/execute")
                     (seq 0 10))
  /\ candidate_urls AuraComm.nodes (js "cpp")
    = Some (List.map (fun i => js "http://localhost:"
                                 ++ show_Z (56000 + Z.of_nat i) ++ js "/bridge")
                     (seq 0 10))
  /\ candidate_urls AuraComm.nodes (js "rust")
    = Some (List.map (fun i => js "http://localhost:"
                                 ++ show_Z (58000 + Z.of_nat i) ++ js "/bridge")
                     (seq 0 10)).
Proof. repeat split; vm_compute; reflexivity. Qed.

(** A name that is neither a node nor a member of [Object.prototype] gets
    the ports of python, with the path [/bridge]. *)
Lemma unknown_engine_candidates lang :
  AuraComm.nodes !! lang = None ->
  assoc lang AuraComm.Object_prototype = None ->
  AuraComm.lookup_ports AuraComm.nodes lang
    = AuraComm.Ports (AuraComm.port_range 55000)
  /\ AuraComm.path_of lang = js "/bridge".
Proof.
  intros Hown Hproto. unfold AuraComm.lookup_ports, AuraComm.path_of.
  rewrite Hown, Hproto. split; [reflexivity|].
  rewrite bool_decide_eq_false_2; [done|]. intros ->. by vm_compute in Hown.
Qed.

(** C8, at an engine name where it fails. For the unknown engine [go] the
    candidates are the ports of python with the path [/bridge]: not the
    candidate list of python, whose path is [/execute]. *)
Theorem unknown_engine_not_python_candidates :
  candidate_urls AuraComm.nodes (js "go")
    = Some (List.map (fun port => AuraComm.url_of port (js "/bridge"))
                     (AuraComm.port_range 55000))
  /\ candidate_urls AuraComm.nodes (js "python")
    = Some (List.map (fun port => AuraComm.url_of port (js "/execute"))
                     (AuraComm.port_range 55000))
  /\ candidate_urls AuraComm.nodes (js "go")
     <> candidate_urls AuraComm.nodes (js "python").
Proof. repeat split; vm_compute; congruence. Qed.

(** An engine name that [Object.prototype] defines, here [constructor],
    reads that member instead of a port array, and the loop throws. *)
Example inherited_engine_name env w :
  AuraComm.lookup_ports AuraComm.nodes (js "constructor")
    = AuraComm.Inherited (VNum 1)
  /\ fst (AuraComm.dispatch env AuraComm.nodes (js "constructor") (js "x") w)
     = Throw (js "ports is not iterable").
Proof. split; reflexivity. Qed.

(** ** [dispatch] and exceptions *)

(** [btoa] throws exactly on a string with a code unit above 255. *)
Lemma btoa_throws source :
  Exists (fun c => 255 < c) source -> btoa source = None.
Proof.
  intros Hbig. unfold btoa.
  destruct (forallb (fun c => c <=? 255) source) eqn:Hall; [|done].
  rewrite forallb_forall in Hall. apply Exists_exists in Hbig.
  destruct Hbig as (c & Hin & Hc). apply list_elem_of_In in Hin.
  specialize (Hall c Hin). apply N.leb_le in Hall. lia.
Qed.

(** C2, at the sources where it fails. For a source with a code unit above
    255, [btoa] throws before any [try] block is entered: [dispatch]
    throws, whatever the engine and the surroundings, and leaves the world
    as it was. *)
Theorem dispatch_throws_on_unencodable_source env nodes lang source w :
  Exists (fun c => 255 < c) source ->
  AuraComm.dispatch env nodes lang source w
  = (Throw (js "InvalidCharacterError"), w).
Proof.
  intros Hbig. unfold AuraComm.dispatch. rewrite bind_run. cbn [clock].
  by rewrite (btoa_throws _ Hbig).
Qed.

(** The source made of the single letter pi, U+03C0, sent to python. *)
Lemma dispatch_throws_on_unencodable_source_witness :
  AuraComm.dispatch env_down AuraComm.nodes (js "python") [960] fresh
  = (Throw (js "InvalidCharacterError"), fresh).
Proof.
  apply (dispatch_throws_on_unencodable_source env_down AuraComm.nodes
           (js "python") [960] fresh).
  apply Exists_cons_hd. reflexivity.
Defined.

(** When the first port answers with a body that is not an object, here
    the number 7, [dispatch] returns [undefined]. *)
Example dispatch_returns_undefined :
  fst (AuraComm.dispatch
         (mkEnv (fun _ => 0%Z) (fun _ => js "0") (fun _ _ _ => Reply 1 200 (inl (VNum 7)))
                (js "aborted") (fun _ => None) (fun _ => None)
                (fun _ _ => PyUndefined))
         AuraComm.nodes (js "cpp") (js "x") fresh)
  = Ret None.
Proof. vm_compute; reflexivity. Qed.

Section CommTotal.

Variable env : Env.

(** The loop itself never throws: every exception of an attempt is caught. *)
Lemma probe_returns lang path payload total ports : forall attempt w,
  exists r evs, AuraComm.probe env lang path payload total ports attempt w
                = (Ret r, add_events evs w).
Proof.
  induction ports as [|port rest IH]; intros attempt w.
  - cbn [AuraComm.probe]. mrun. eauto.
  - cbn [AuraComm.probe]. rewrite bind_run, print_run.
    unfold try_catch. rewrite bind_run, tryPost_run.
    destruct (AuraComm.attempt_outcome _ _ _ _ _) as [body|e].
    + match goal with
      | |- context [AuraComm.handleResponse body ?w0] =>
          destruct (handleResponse_returns body w0) as (r & evs & -> & _)
      end.
      rewrite !add_events_app. eauto.
    + mrun.
      match goal with
      | |- context [AuraComm.probe _ _ _ _ _ _ _ ?w0] =>
          destruct (IH (S attempt) w0) as (r & evs & ->)
      end.
      rewrite !add_events_app. eauto.
Qed.

(** With an encodable source and an array of ports, [dispatch] returns:
    no network failure escapes it. *)
Lemma dispatch_returns nodes lang source b64 ports w :
  btoa source = Some b64 ->
  AuraComm.lookup_ports nodes lang = AuraComm.Ports ports ->
  exists r evs, AuraComm.dispatch env nodes lang source w
                = (Ret r, add_events evs w).
Proof.
  intros Hb Hl. rewrite (dispatch_ports_run env _ _ _ _ _ _ Hb Hl).
  match goal with
  | |- context [AuraComm.probe _ ?l ?p ?pl ?t ?ps ?a ?w0] =>
      destruct (probe_returns l p pl t ps a w0) as (r & evs & ->)
  end.
  rewrite add_events_app. eauto.
Qed.

End CommTotal.

(** ** AuraRunner *)

Lemma checkCache_run key w :
  AuraRunner.checkCache key w
  = (Ret (default VUndef (execution_results w !! key)), w).
Proof. reflexivity. Qed.

Lemma setCache_run key v w :
  AuraRunner.setCache key v w
  = (Ret tt, mkWorld (log w) (<[key := v]> (execution_results w)) (pyodide w)).
Proof. reflexivity. Qed.

Ltac mrun_store :=
  repeat (first [rewrite bind_run | rewrite print_run | rewrite emit_run
                | rewrite ret_run | rewrite setCache_run];
          cbv beta iota zeta; unfold add_events;
          cbn [log execution_results pyodide]).

(** The same, through the conversions: by the hypotheses on [converts]
    where there are some, by cases where there are none. *)
Ltac mrun_conv :=
  repeat (first [ rewrite bind_run | rewrite print_run | rewrite emit_run
                | rewrite ret_run | rewrite setCache_run
                | rewrite string_of_run | rewrite print_value_run
                | match goal with
                  | H : converts ?v = _ |- context [converts ?v] => rewrite H
                  end
                | match goal with
                  | |- context [if converts ?v then _ else _] =>
                      destruct (converts v) eqn:?
                  end ];
          cbv beta iota zeta; unfold add_events;
          cbn [log execution_results pyodide]).

(** The texts that the bridge stores are never empty. *)
Lemma summary_truthy lang r : truthy (VStr (AuraRunner.summary_of lang r)) = true.
Proof. reflexivity. Qed.

Lemma fallback_truthy lang : truthy (VStr (AuraRunner.fallback_of lang)) = true.
Proof. reflexivity. Qed.

Section RunnerProperties.

Variable env : Env.
Variable nodes : gmap jsstring (list Z).

(** A hit: [execute] prints the stored value, or throws on it, and does
    nothing else. *)
Lemma execute_hit engineEl code w v :
  trim code <> [] ->
  execution_results w
    !! AuraRunner.codeHash code (default (js "javascript") engineEl) = Some v ->
  truthy v = true ->
  AuraRunner.execute env nodes engineEl code w = cache_hit v w.
Proof.
  intros Hcode Hstore Htruthy. unfold AuraRunner.execute, cache_hit.
  destruct (trim code) as [|c t]; [done|].
  cbv zeta. rewrite bind_run, checkCache_run, Hstore.
  change (default VUndef (Some v)) with v. rewrite Htruthy.
  rewrite bind_run, print_run. cbv beta iota. rewrite print_value_run.
  destruct (converts v); [by rewrite add_events_app|done].
Qed.

(** A miss for cpp or rust: one line, then [dispatchBridge]. *)
Lemma execute_miss_bridge engine code w :
  trim code <> [] ->
  engine = js "cpp" \/ engine = js "rust" ->
  truthy (default VUndef
            (execution_results w !! AuraRunner.codeHash code engine)) = false ->
  AuraRunner.execute env nodes (Some engine) code w =
    try_catch
      (AuraRunner.dispatchBridge env nodes code engine
         (AuraRunner.codeHash code engine))
      (fun e => print (js "Thread Exception: " ++ e) (js "error"))
      (add_events [Print (js "Offloading " ++ toUpperCase engine
                            ++ js " to background thread...") (js "info")] w).
Proof.
  intros Hcode Hengine Hmiss. unfold AuraRunner.execute.
  destruct (trim code) as [|c t]; [done|].
  cbv zeta. change (default (js "javascript") (Some engine)) with engine.
  rewrite bind_run, checkCache_run, Hmiss. rewrite bind_run, print_run.
  by destruct Hengine as [-> | ->].
Qed.

(** A miss for python: one line, then [runPython]. *)
Lemma execute_miss_python code w :
  trim code <> [] ->
  truthy (default VUndef
            (execution_results w !! AuraRunner.codeHash code (js "python")))
    = false ->
  AuraRunner.execute env nodes (Some (js "python")) code w =
    try_catch
      (AuraRunner.runPython env nodes code (AuraRunner.codeHash code (js "python")))
      (fun e => print (js "Thread Exception: " ++ e) (js "error"))
      (add_events [Print (js "Offloading " ++ toUpperCase (js "python")
                            ++ js " to background thread...") (js "info")] w).
Proof.
  intros Hcode Hmiss. unfold AuraRunner.execute.
  destruct (trim code) as [|c t]; [done|].
  cbv zeta. change (default (js "javascript") (Some (js "python"))) with (js "python").
  rewrite bind_run, checkCache_run, Hmiss. by rewrite bind_run, print_run.
Qed.

(** [dispatchBridge] always returns, and always stores a text: which one
    is decided by the outcome of [dispatch]. *)
Lemma dispatchBridge_run code lang key w :
  lang <> js "python" ->
  exists o evs stored shown evs',
    AuraComm.dispatch env nodes lang code
      (add_events [Print (js "Bridge: Payload " ++ lang
                            ++ js " optimized. Dispatching...") (js "dim")] w)
    = (o, add_events evs
            (add_events [Print (js "Bridge: Payload " ++ lang
                                  ++ js " optimized. Dispatching...") (js "dim")] w))
    /\ entry_after_miss lang o = Some (VStr stored, shown)
    /\ AuraRunner.dispatchBridge env nodes code lang key w =
         (Ret tt, mkWorld (log w ++ evs') (<[key := VStr stored]> (execution_results w))
                          (pyodide w))
    /\ requests evs' = requests evs
    /\ last evs' = Some (Print shown (js "success")).
Proof.
  intros Hlang. unfold AuraRunner.dispatchBridge. cbv zeta.
  rewrite bind_run, print_run. unfold try_catch. rewrite bind_run.
  destruct (logs_only_dispatch env nodes lang code
              (add_events [Print (js "Bridge: Payload " ++ lang
                                    ++ js " optimized. Dispatching...")
                                 (js "dim")] w)) as (o & evs & Hd).
  rewrite Hd. exists o, evs. unfold entry_after_miss.
  rewrite (bool_decide_eq_false_2 _ Hlang).
  unfold AuraRunner.summary.
  destruct o as [[r|]|e]; [destruct (success r) eqn:Hs|..];
    [destruct (converts (nullish (exit_code r) (VNum 0))) eqn:Hexit,
       (converts (nullish (output r) (nullish (stdout r) (VStr [])))) eqn:Hout,
       (converts (nullish (latency_ms r) (VNum 0))) eqn:Hlatency|..];
    cbn [andb]; mrun_conv;
    try change (js "[" ++ toUpperCase lang ++ js "] Exit:"
                  ++ ToString (nullish (exit_code r) (VNum 0)) ++ js " "
                  ++ ToString (nullish (output r) (nullish (stdout r) (VStr []))))
      with (AuraRunner.summary_of lang r);
    rewrite <- ?app_assoc, ?insert_insert_eq;
    (do 3 eexists; split; [reflexivity|]; split; [reflexivity|];
     split; [reflexivity|]; split;
     [ rewrite !requests_app; cbn [requests List.filter is_fetch app];
       by rewrite ?app_nil_r
     | rewrite ?app_assoc; apply last_snoc ]).
Qed.

(** Loading Pyodide and running code in it leave the store alone. *)
Lemma warm_up_run w :
  exists o p, AuraRunner.warm_up env w
              = (o, mkWorld (log w ++ [PyodideLoad]) (execution_results w) p).
Proof.
  unfold AuraRunner.warm_up, clock, throw.
  rewrite bind_run. cbv beta iota. rewrite bind_run, emit_run. cbv beta iota.
  destruct (loadPyodide env _); [by eexists _, _|].
  rewrite bind_run. cbv beta iota.
  destruct (loadPackage env _); by eexists _, _.
Qed.

Lemma run_pyodide_run code w :
  exists o, AuraRunner.run_pyodide env code w
            = (o, add_events [PyodideRun code] w).
Proof.
  unfold AuraRunner.run_pyodide, clock, throw.
  rewrite bind_run. cbv beta iota. rewrite bind_run, emit_run. cbv beta iota.
  destruct (runPythonAsync env _ code); by eexists.
Qed.


(** [runPython] after a successful result of the native node whose output
    converts to a string: the output is stored and printed. *)
Lemma runPython_success code key w r evs :
  AuraComm.dispatch env nodes (js "python") code w = (Ret (Some r), add_events evs w) ->
  success r = true ->
  converts (nullish (output r) (nullish (stdout r) (VStr []))) = true ->
  AuraRunner.runPython env nodes code key w =
    (Ret tt,
     mkWorld (log w ++ evs
                ++ [Print (ToString (nullish (output r) (nullish (stdout r) (VStr []))))
                          (js "success")])
             (<[key := nullish (output r) (nullish (stdout r) (VStr []))]>
                (execution_results w))
             (pyodide w)).
Proof.
  intros Hd Hs Hout. unfold AuraRunner.runPython, try_catch.
  rewrite bind_run, bind_run, Hd, Hs. mrun_conv.
  by rewrite <- app_assoc.
Qed.


(** After a result that is no success, [undefined] or an exception of
    the native node, [runPython] runs the Pyodide fallback. *)
Lemma runPython_fallback code key w o evs :
  AuraComm.dispatch env nodes (js "python") code w = (o, add_events evs w) ->
  entry_after_miss (js "python") o = None ->
  AuraRunner.runPython env nodes code key w
  = AuraRunner.wasm_fallback env code key (add_events evs w).
Proof.
  intros Hd Hnone. unfold AuraRunner.runPython, try_catch.
  rewrite bind_run. destruct o as [[r|]|e].
  - rewrite bind_run, Hd. unfold entry_after_miss in Hnone.
    change (bool_decide (js "python" = js "python")) with true in Hnone.
    cbv iota in Hnone. destruct (success r); [done|]. by mrun.
  - rewrite bind_run, Hd. by mrun.
  - rewrite bind_run, Hd. by mrun.
Qed.


End RunnerProperties.

(** The key of the request [("print(1)", "python")]: the SHA-256 of
    ["print(1)python"], in hex. *)
Example codeHash_print_1_python :
  AuraRunner.codeHash (js "print(1)") (js "python")
  = js "dd1162fe8fb19e5da2d2af0407a1a2c6a6db2755aca182556b2124d504bb6145".
Proof. vm_compute; reflexivity. Qed.

Lemma entry_after_miss_bridge_truthy lang o stored shown :
  lang <> js "python" ->
  entry_after_miss lang o = Some (VStr stored, shown) ->
  truthy (VStr stored) = true.
Proof.
  intros Hlang. unfold entry_after_miss.
  rewrite (bool_decide_eq_false_2 _ Hlang).
  destruct o as [[r|]|e]; [destruct (_ && _)|..];
    intros [= <- _]; reflexivity.
Qed.

Lemma bridge_engine_not_python engine :
  engine = js "cpp" \/ engine = js "rust" -> engine <> js "python".
Proof. by intros [-> | ->]. Qed.

Section Memoization.

Variable env : Env.
Variable nodes : gmap jsstring (list Z).

(** A miss for cpp or rust, by the outcome of [dispatch]. *)
Lemma execute_miss_bridge_run engine code w :
  trim code <> [] ->
  engine = js "cpp" \/ engine = js "rust" ->
  truthy (default VUndef
            (execution_results w !! AuraRunner.codeHash code engine)) = false ->
  exists o evs stored shown evs',
    AuraComm.dispatch env nodes engine code (before_dispatch engine w)
      = (o, add_events evs (before_dispatch engine w))
    /\ entry_after_miss engine o = Some (VStr stored, shown)
    /\ AuraRunner.execute env nodes (Some engine) code w =
         (Ret tt,
          mkWorld (log w ++ evs')
                  (<[AuraRunner.codeHash code engine := VStr stored]>
                     (execution_results w))
                  (pyodide w))
    /\ requests evs' = requests evs
    /\ last evs' = Some (Print shown (js "success")).
Proof.
  intros Hcode Hengine Hmiss.
  pose proof (bridge_engine_not_python _ Hengine) as Hnp.
  rewrite (execute_miss_bridge env nodes _ _ _ Hcode Hengine Hmiss).
  unfold try_catch, before_dispatch. rewrite (bool_decide_eq_false_2 _ Hnp).
  match goal with
  | |- context [AuraRunner.dispatchBridge env nodes code engine ?k ?w0] =>
      destruct (dispatchBridge_run env nodes code engine k w0 Hnp)
        as (o & evs & stored & shown & evs' & Hd & He & -> & Hreq & Hlast)
  end.
  rewrite add_events_app in Hd.
  exists o, evs, stored, shown. eexists. split; [exact Hd|].
  split; [exact He|]. cbn [add_events log execution_results pyodide].
  rewrite <- app_assoc. split; [reflexivity|]. split.
  - rewrite requests_app. exact Hreq.
  - destruct evs' as [|e0 evs0]; [done|]. cbn [app]. by rewrite last_cons_cons.
Qed.

Lemma cache_hit_world v w :
  execution_results (snd (cache_hit v w)) = execution_results w
  /\ requests (log (snd (cache_hit v w))) = requests (log w).
Proof.
  unfold cache_hit. destruct (converts v);
    cbn [snd add_events execution_results log];
    by rewrite requests_app, app_nil_r.
Qed.

(** After a call for cpp or rust, a truthy value is under the key; it is a
    text when the call was a miss. *)
Lemma bridge_call_stores engine code w :
  trim code <> [] ->
  engine = js "cpp" \/ engine = js "rust" ->
  exists v,
    execution_results (snd (AuraRunner.execute env nodes (Some engine) code w))
      !! AuraRunner.codeHash code engine = Some v
    /\ truthy v = true
    /\ (truthy (default VUndef
                  (execution_results w !! AuraRunner.codeHash code engine))
        = false -> exists text, v = VStr text).
Proof.
  intros Hcode Hengine.
  destruct (truthy (default VUndef
              (execution_results w !! AuraRunner.codeHash code engine)))
    eqn:Hcached.
  - destruct (execution_results w !! AuraRunner.codeHash code engine)
      as [v|] eqn:Hv; [|done].
    rewrite (execute_hit env nodes (Some engine) code w v Hcode Hv Hcached).
    exists v. by rewrite (proj1 (cache_hit_world v w)).
  - destruct (execute_miss_bridge_run engine code w Hcode Hengine Hcached)
      as (o & evs & stored & shown & evs' & _ & He & -> & _).
    exists (VStr stored). cbn [snd execution_results].
    split; [apply lookup_insert_eq|]. split; [|by eexists].
    eapply entry_after_miss_bridge_truthy;
      [by apply bridge_engine_not_python|exact He].
Qed.


End Memoization.




(** C9, as the code has it. After a miss for python, cpp or rust with a
    source that is not blank, [execute] calls [dispatch]; for cpp and rust
    every outcome of [dispatch] decides an entry, which is a text, for
    python a successful result does; and when the entry converts to a
    string, [execute] puts it under the key, makes no further request,
    prints the entry's line last, and returns nothing. *)
Theorem execute_miss_stores env nodes engine code w :
  trim code <> [] ->
  engine = js "python" \/ engine = js "cpp" \/ engine = js "rust" ->
  truthy (default VUndef
            (execution_results w !! AuraRunner.codeHash code engine)) = false ->
  exists o evs,
    AuraComm.dispatch env nodes engine code (before_dispatch engine w)
      = (o, add_events evs (before_dispatch engine w))
    /\ (engine <> js "python" ->
        exists text shown, entry_after_miss engine o = Some (VStr text, shown))
    /\ forall v shown,
         entry_after_miss engine o = Some (v, shown) ->
         converts v = true ->
         exists evs',
           AuraRunner.execute env nodes (Some engine) code w =
             (Ret tt,
              mkWorld (log w ++ evs')
                      (<[AuraRunner.codeHash code engine := v]> (execution_results w))
                      (pyodide w))
           /\ requests evs' = requests evs
           /\ last evs' = Some (Print shown (js "success")).
Proof.
  intros Hcode [-> | Hbridge] Hmiss.
  - destruct (logs_only_dispatch env nodes (js "python") code
                (before_dispatch (js "python") w)) as (o & evs & Hd).
    exists o, evs. split; [exact Hd|]. split; [done|].
    intros v shown He Hconv. unfold entry_after_miss in He.
    change (bool_decide (js "python" = js "python")) with true in He.
    cbv iota in He. destruct o as [[r|]|e]; try discriminate He.
    destruct (success r) eqn:Hs; [|done]. cbv zeta in He.
    injection He as <- <-.
    rewrite (execute_miss_python env nodes _ _ Hcode Hmiss). unfold try_catch.
    change (before_dispatch (js "python") w)
      with (add_events [Print (js "Offloading " ++ toUpperCase (js "python")
                                 ++ js " to background thread...")
                              (js "info")] w) in Hd.
    rewrite (runPython_success env nodes _ _ _ _ _ Hd Hs Hconv).
    cbn [add_events log execution_results pyodide]. rewrite <- app_assoc.
    eexists. split; [reflexivity|]. split.
    + rewrite !requests_app. cbn [requests List.filter is_fetch app].
      by rewrite app_nil_r.
    + by rewrite !app_assoc, last_snoc.
  - destruct (execute_miss_bridge_run env nodes engine code w Hcode Hbridge Hmiss)
      as (o & evs & stored & shown & evs' & Hd & He & Hrun & Hreq & Hlast).
    exists o, evs. split; [exact Hd|]. split; [by eexists _, _|].
    intros v shown' He' _. rewrite He in He'. injection He' as <- <-.
    by exists evs'.
Qed.

(** With no node listening, a first call for cpp stores the fallback
    text. *)
Lemma execute_miss_stores_witness :
  execution_results
    (snd (AuraRunner.execute env_down AuraComm.nodes (Some (js "cpp")) (js "x") fresh))
    !! AuraRunner.codeHash (js "x") (js "cpp")
  = Some (VStr (js "[CPP] Fallback Execution simulated.")).
Proof.
  destruct (execute_miss_stores env_down AuraComm.nodes (js "cpp") (js "x") fresh)
    as (o & evs & Hd & _ & Hstore).
  - vm_compute; discriminate.
  - right; left; reflexivity.
  - vm_compute; reflexivity.
  - vm_compute in Hd. injection Hd as <- _.
    destruct (Hstore (VStr (AuraRunner.fallback_of (js "cpp")))
                (AuraRunner.fallback_of (js "cpp")) eq_refl eq_refl)
      as (evs' & -> & _).
    apply lookup_insert_eq.
Defined.

(** C9 as stated fails when every port of cpp fails: [dispatch] returns
    the failed result with error ['No available cpp node ports'], and what
    [execute] stores is the fallback text, not that result. *)
Lemma fallback_text_stored_not_result :
  ~ stores_dispatcher_result env_down AuraComm.nodes (js "cpp") (js "x") fresh.
Proof.
  intros (r & Hr & Hstore). vm_compute in Hr. injection Hr as <-.
  vm_compute in Hstore. discriminate.
Qed.

Example failed_dispatch_and_stored_text :
  fst (AuraComm.dispatch env_down AuraComm.nodes (js "cpp") (js "x")
         (before_dispatch (js "cpp") fresh))
  = Ret (Some (failure (VStr (js "No available cpp node ports"))))
  /\ execution_results
       (snd (AuraRunner.execute env_down AuraComm.nodes (Some (js "cpp"))
               (js "x") fresh))
       !! AuraRunner.codeHash (js "x") (js "cpp")
     = Some (VStr (js "[CPP] Fallback Execution simulated.")).
Proof. split; vm_compute; reflexivity. Qed.

(** A node that answers [{stdout: {toString: 1}, exit_code: 0}]. For cpp
    the summary cannot be built, and the fallback text is stored. For
    python the output is stored before [print] throws on it; Pyodide runs
    and raises, the call ends with ["Thread Exception: NameError"], and the
    next call throws on the cached object. *)
Example unprintable_output :
  let cpp := AuraRunner.execute env_unprintable AuraComm.nodes (Some (js "cpp"))
               (js "x") fresh in
  let python := AuraRunner.execute env_unprintable AuraComm.nodes
                  (Some (js "python")) (js "x") fresh in
  execution_results (snd cpp) !! AuraRunner.codeHash (js "x") (js "cpp")
    = Some (VStr (js "[CPP] Fallback Execution simulated."))
  /\ fst python = Ret tt
  /\ last (log (snd python))
     = Some (Print (js "Thread Exception: NameError") (js "error"))
  /\ execution_results (snd python) !! AuraRunner.codeHash (js "x") (js "python")
     = Some (VObj [(js "toString", VNum 1)])
  /\ fst (AuraRunner.execute env_unprintable AuraComm.nodes (Some (js "python"))
            (js "x") (snd python))
     = Throw not_primitive.
Proof. repeat split; vm_compute; reflexivity. Qed.

(** C10. The key is the SHA-256 of the plain concatenation [code + engine].
    The requests [("x", "cpp")] and [("xc", "pp")] differ and concatenate to
    the same string, so they have the same key, and after a call for the
    first, whatever the surroundings, a call for the second is a hit on the
    value stored for the first; where nothing was under the key before,
    that value is a text, and the call for the second prints it. *)
Theorem cache_key_collision :
  exists s1 e1 s2 e2 : jsstring,
    (s1, e1) <> (s2, e2)
    /\ s1 ++ e1 = s2 ++ e2
    /\ AuraRunner.codeHash s1 e1 = AuraRunner.hash (s1 ++ e1)
    /\ AuraRunner.codeHash s1 e1 = AuraRunner.codeHash s2 e2
    /\ (forall env nodes w,
         exists v,
           execution_results (snd (AuraRunner.execute env nodes (Some e1) s1 w))
             !! AuraRunner.codeHash s1 e1 = Some v
           /\ AuraRunner.execute env nodes (Some e2) s2
                (snd (AuraRunner.execute env nodes (Some e1) s1 w))
              = cache_hit v (snd (AuraRunner.execute env nodes (Some e1) s1 w)))
    /\ (forall env nodes shown store loaded,
         let w := mkWorld shown (delete (AuraRunner.codeHash s1 e1) store) loaded in
         exists text,
           execution_results (snd (AuraRunner.execute env nodes (Some e1) s1 w))
             !! AuraRunner.codeHash s1 e1 = Some (VStr text)
           /\ AuraRunner.execute env nodes (Some e2) s2
                (snd (AuraRunner.execute env nodes (Some e1) s1 w))
              = (Ret tt,
                 add_events
                   [Print (js "Result retrieved from local cache (0ms).") (js "info");
                    Print text (js "success")]
                   (snd (AuraRunner.execute env nodes (Some e1) s1 w)))).
Proof.
  exists (js "x"), (js "cpp"), (js "xc"), (js "pp").
  assert (Hkey : AuraRunner.codeHash (js "x") (js "cpp")
                 = AuraRunner.codeHash (js "xc") (js "pp")).
  { unfold AuraRunner.codeHash. f_equal. }
  split; [by vm_compute|]. split; [reflexivity|]. split; [reflexivity|].
  split; [exact Hkey|]. split.
  - intros env nodes w.
    destruct (bridge_call_stores env nodes (js "cpp") (js "x") w)
      as (v & Hv & Htruthy & _); [by vm_compute|by left|].
    exists v. split; [exact Hv|].
    apply execute_hit; [by vm_compute| |exact Htruthy].
    change (default (js "javascript") (Some (js "pp"))) with (js "pp").
    rewrite <- Hkey. exact Hv.
  - intros env nodes shown store loaded w.
    destruct (bridge_call_stores env nodes (js "cpp") (js "x") w)
      as (v & Hv & Htruthy & Htext); [by vm_compute|by left|].
    destruct Htext as [text ->].
    { unfold w. cbn [execution_results]. by rewrite lookup_delete_eq. }
    exists text. split; [exact Hv|].
    rewrite (execute_hit env nodes (Some (js "pp")) (js "xc") _ (VStr text));
      [done|by vm_compute| |exact Htruthy].
    change (default (js "javascript") (Some (js "pp"))) with (js "pp").
    rewrite <- Hkey. exact Hv.
Qed.

(** * Further properties *)

(** ** The shapes of [handleResponse] *)

(** [handleResponse] returns a result exactly for objects and arrays. *)
Theorem handleResponse_result_iff_object data :
  is_Some (normalized data)
  <-> (exists fields, data = VObj fields) \/ (exists items, data = VArr items).
Proof.
  unfold normalized, AuraComm.handleResponse, try_catch. split.
  - destruct data; eauto; cbn [truthy typeof_object];
      rewrite ?andb_false_r; cbn [andb]; rewrite ret_run;
      by intros [? [=]].
  - intros [[fields ->]|[items ->]]; cbn [truthy typeof_object andb];
      mcases; cbn [fst]; eauto.
Qed.

(** The legacy shape: a body without both [stdout] and [exit_code] whose
    [status] is the string ["success"] is a success with exit code 0,
    whatever [error] or [message] it also carries, when its latency
    converts to a string; when it does not, the TypeError is caught and the
    result is a failure with its message. *)
Theorem handleResponse_legacy_shape data w :
  has data (js "stdout") && has data (js "exit_code") = false ->
  get data (js "status") = VStr (js "success") ->
  let latency := nullish (get data (js "latency_ms")) (VNum 0) in
  AuraComm.handleResponse data w =
    (if converts latency
     then (Ret (Some (mkResult true (get data (js "stdout")) (VNum 0) latency
                               VUndef)),
           add_events
             [Print (js "Node Response: [Exit 0] [" ++ ToString latency
                       ++ js "ms]") (js "success")] w)
     else (Ret (Some (failure (VStr not_primitive))),
           add_events
             [Print (js "Response Parse Error: " ++ not_primitive)
                    (js "error")] w)).
Proof.
  intros Hstd Hstatus latency. destruct data; try discriminate Hstatus.
  unfold AuraComm.handleResponse, try_catch. rewrite Hstd, Hstatus.
  cbn [truthy typeof_object andb strict_eq_string].
  rewrite bool_decide_eq_true_2 by done.
  rewrite bind_run, string_of_run. fold latency.
  destruct (converts latency); by mrun.
Qed.

Lemma handleResponse_legacy_shape_witness :
  normalized (VObj [(js "status", VStr (js "success"));
                    (js "error", VStr (js "boom"));
                    (js "stdout", VStr (js "out"))])
  = Some (mkResult true (VStr (js "out")) (VNum 0) (VNum 0) VUndef).
Proof.
  unfold normalized.
  rewrite (handleResponse_legacy_shape
             (VObj [(js "status", VStr (js "success"));
                    (js "error", VStr (js "boom"));
                    (js "stdout", VStr (js "out"))])
             (mkWorld [] ∅ false)); reflexivity.
Defined.

(** The error shapes: an object or array that is neither of the standard
    nor of the legacy shape is a failure without output. Its error is the
    [error] property when that is truthy, else the [message] property when
    that is truthy, else ['Unknown node response']; and when that error
    does not convert to a string, the TypeError is caught and its message
    is the error. *)
Theorem handleResponse_error_shapes data w :
  truthy data && typeof_object data = true ->
  has data (js "stdout") && has data (js "exit_code") = false ->
  strict_eq_string (get data (js "status")) (js "success") = false ->
  exists err,
    AuraComm.handleResponse data w =
      (if converts err
       then (Ret (Some (failure err)),
             add_events [Print (js "Node Exception: " ++ ToString err)
                               (js "error")] w)
       else (Ret (Some (failure (VStr not_primitive))),
             add_events [Print (js "Response Parse Error: " ++ not_primitive)
                               (js "error")] w))
    /\ (truthy (get data (js "error")) = true -> err = get data (js "error"))
    /\ (truthy (get data (js "error")) = false ->
        truthy (get data (js "message")) = true ->
        err = get data (js "message"))
    /\ (truthy (get data (js "error")) = false ->
        truthy (get data (js "message")) = false ->
        err = VStr (js "Unknown node response")).
Proof.
  intros Hobj Hstd Hstatus.
  exists (or_else (get data (js "error"))
            (or_else (get data (js "message"))
                     (VStr (js "Unknown node response")))).
  split.
  - unfold AuraComm.handleResponse, try_catch. rewrite Hobj, Hstd, Hstatus.
    cbv zeta. rewrite bind_run, string_of_run.
    destruct (converts _); by mrun.
  - unfold or_else. repeat split; intros; by repeat case_match.
Qed.

(** An empty [error] string is passed over for the [message]. *)
Lemma handleResponse_error_shapes_witness :
  normalized (VObj [(js "error", VStr (js "")); (js "message", VStr (js "m"))])
  = Some (failure (VStr (js "m"))).
Proof.
  unfold normalized.
  destruct (handleResponse_error_shapes
              (VObj [(js "error", VStr (js "")); (js "message", VStr (js "m"))])
              (mkWorld [] ∅ false)) as (err & -> & _ & Hmsg & _);
    [reflexivity..|].
  by rewrite Hmsg.
Defined.

(** ** What [execute] leaves alone *)

Lemma touches_only_logs {A} key (m : M A) : logs_only m -> touches_only key m.
Proof.
  intros Hm w. destruct (Hm w) as (o & evs & ->).
  by exists o, evs, (execution_results w), (pyodide w).
Qed.

Lemma touches_only_bind {A B} key (m : M A) (f : A -> M B) :
  touches_only key m -> (forall a, touches_only key (f a)) ->
  touches_only key (m ≫= f).
Proof.
  intros Hm Hf w. rewrite bind_run.
  destruct (Hm w) as (o & evs & s1 & p1 & -> & Hs1 & Hp1).
  destruct o as [a|e]; [|by exists (Throw e), evs, s1, p1].
  destruct (Hf a (mkWorld (log w ++ evs) s1 p1))
    as (o' & evs' & s2 & p2 & -> & Hs2 & Hp2).
  cbn [log execution_results pyodide] in *.
  exists o', (evs ++ evs'), s2, p2. rewrite app_assoc. split; [done|]. split.
  - intros k Hk. by rewrite Hs2, Hs1.
  - auto.
Qed.

Lemma touches_only_try {A} key (m : M A) (h : jsstring -> M A) :
  touches_only key m -> (forall e, touches_only key (h e)) ->
  touches_only key (try_catch m h).
Proof.
  intros Hm Hh w. unfold try_catch.
  destruct (Hm w) as (o & evs & s1 & p1 & -> & Hs1 & Hp1).
  destruct o as [a|e]; [by exists (Ret a), evs, s1, p1|].
  destruct (Hh e (mkWorld (log w ++ evs) s1 p1))
    as (o' & evs' & s2 & p2 & -> & Hs2 & Hp2).
  cbn [log execution_results pyodide] in *.
  exists o', (evs ++ evs'), s2, p2. rewrite app_assoc. split; [done|]. split.
  - intros k Hk. by rewrite Hs2, Hs1.
  - auto.
Qed.

Lemma touches_only_setCache key v : touches_only key (AuraRunner.setCache key v).
Proof.
  intros w. exists (Ret tt), [], (<[key := v]> (execution_results w)), (pyodide w).
  rewrite setCache_run, app_nil_r. split; [done|]. split; [|done].
  intros k Hk. by rewrite lookup_insert_ne.
Qed.

Lemma touches_only_checkCache key k : touches_only key (AuraRunner.checkCache k).
Proof. apply touches_only_logs. intros w. eexists _, []. by rewrite add_events_nil. Qed.

Section Frame.

Variable env : Env.
Variable nodes : gmap jsstring (list Z).

Lemma touches_only_warm_up key : touches_only key (AuraRunner.warm_up env).
Proof.
  intros w. destruct (warm_up_run env w) as (o & p & Hrun).
  exists o, [PyodideLoad], (execution_results w), p. split; [done|]. split; [done|].
  intros Hloaded. revert Hrun.
  unfold AuraRunner.warm_up, clock, throw.
  rewrite bind_run. cbv beta iota. rewrite bind_run, emit_run. cbv beta iota.
  destruct (loadPyodide env _).
  - cbn [add_events pyodide]. intros [= _ <-]. done.
  - rewrite bind_run. cbv beta iota. destruct (loadPackage env _);
      cbn; by intros [= _ <-].
Qed.

Lemma touches_only_run_pyodide key code :
  touches_only key (AuraRunner.run_pyodide env code).
Proof.
  apply touches_only_logs. intros w.
  destruct (run_pyodide_run env code w) as (o & ->). by eexists _, _.
Qed.

Lemma touches_only_wasm_fallback key code :
  touches_only key (AuraRunner.wasm_fallback env code key).
Proof.
  unfold AuraRunner.wasm_fallback.
  apply touches_only_bind.
  { apply touches_only_logs. intros w. eexists _, []. by rewrite add_events_nil. }
  intros loaded. apply touches_only_bind.
  { destruct loaded.
    - apply touches_only_logs, logs_only_ret.
    - apply touches_only_bind; [apply touches_only_logs, logs_only_print|].
      intros _. apply touches_only_warm_up. }
  intros _. apply touches_only_bind; [apply touches_only_run_pyodide|].
  intros result. apply touches_only_bind; [apply touches_only_setCache|].
  intros _. apply touches_only_logs, logs_only_print.
Qed.

(** Splits a computation into its steps, each of which appends to the log
    or writes under the key. *)
Ltac touches_only_tac :=
  repeat first
    [ apply touches_only_setCache
    | apply touches_only_checkCache
    | apply touches_only_wasm_fallback
    | apply touches_only_logs, logs_only_dispatch
    | solve [apply touches_only_logs; auto with logs]
    | apply touches_only_bind; [|intros ?]
    | apply touches_only_try; [|intros ?]
    | match goal with
      | |- touches_only _ (if ?b then _ else _) => destruct b
      | |- touches_only _ (match ?x with _ => _ end) => destruct x
      end ].

Lemma touches_only_runPython key code :
  touches_only key (AuraRunner.runPython env nodes code key).
Proof. unfold AuraRunner.runPython. touches_only_tac. Qed.

Lemma touches_only_dispatchBridge key code lang :
  touches_only key (AuraRunner.dispatchBridge env nodes code lang key).
Proof.
  unfold AuraRunner.dispatchBridge, AuraRunner.summary. cbv zeta.
  touches_only_tac.
Qed.

Lemma touches_only_execute engineEl code :
  touches_only
    (AuraRunner.codeHash code (default (js "javascript") engineEl))
    (AuraRunner.execute env nodes engineEl code).
Proof.
  unfold AuraRunner.execute. cbv zeta.
  destruct (trim code); [apply touches_only_logs, logs_only_print|].
  apply touches_only_bind; [apply touches_only_checkCache|].
  intros cached. destruct (truthy cached); [touches_only_tac|].
  apply touches_only_bind; [apply touches_only_logs, logs_only_print|].
  intros _. apply touches_only_try;
    [|intros e; apply touches_only_logs, logs_only_print].
  repeat case_match.
  - apply touches_only_logs, logs_only_emit.
  - apply touches_only_runPython.
  - apply touches_only_dispatchBridge.
  - apply touches_only_logs, logs_only_print.
Qed.

End Frame.


(** The frame of [execute]: a call only appends to the terminal and
    network log, writes the store at most under the key of its own request
    [hash(code + engine)], and never unloads Pyodide. *)
Theorem execute_frame env nodes engineEl code w :
  let w' := snd (AuraRunner.execute env nodes engineEl code w) in
  (exists evs, log w' = log w ++ evs)
  /\ (forall k,
       k <> AuraRunner.codeHash code (default (js "javascript") engineEl) ->
       execution_results w' !! k = execution_results w !! k)
  /\ (pyodide w = true -> pyodide w' = true).
Proof.
  destruct (touches_only_execute env nodes engineEl code w)
    as (o & evs & s' & p' & Hrun & Hstore & Hloaded).
  cbv zeta. rewrite Hrun. cbn [snd log execution_results pyodide]. eauto.
Qed.

(** A blank source: [execute] prints ["Buffer empty."] and does nothing
    else; it does not even look into the cache. *)
Theorem execute_blank env nodes engineEl code w :
  trim code = [] ->
  AuraRunner.execute env nodes engineEl code w
  = (Ret tt, add_events [Print (js "Buffer empty.") (js "error")] w).
Proof. intros Hblank. unfold AuraRunner.execute. by rewrite Hblank. Qed.

Lemma execute_blank_witness :
  AuraRunner.execute env_55003 AuraComm.nodes (Some (js "python")) (js "  ") fresh
  = (Ret tt, add_events [Print (js "Buffer empty.") (js "error")] fresh).
Proof. apply execute_blank. reflexivity. Defined.

(** The javascript engine, also taken when the page has no language
    selector: after a miss the code goes to the worker, and nothing is
    requested or stored. *)
Theorem execute_javascript env nodes engineEl code w :
  trim code <> [] ->
  default (js "javascript") engineEl = js "javascript" ->
  truthy (default VUndef
            (execution_results w !! AuraRunner.codeHash code (js "javascript")))
    = false ->
  AuraRunner.execute env nodes engineEl code w
  = (Ret tt,
     add_events [Print (js "Offloading JAVASCRIPT to background thread...")
                       (js "info");
                 WorkerPost code] w).
Proof.
  intros Hcode Hengine Hmiss. unfold AuraRunner.execute.
  destruct (trim code) as [|c t]; [done|].
  cbv zeta. rewrite Hengine, bind_run, checkCache_run, Hmiss.
  rewrite bind_run, print_run. unfold try_catch.
  change (bool_decide (js "javascript" = js "javascript")) with true.
  cbv iota. rewrite emit_run. by rewrite add_events_app.
Qed.

Lemma execute_javascript_witness :
  AuraRunner.execute env_down AuraComm.nodes None (js "1") fresh
  = (Ret tt,
     add_events [Print (js "Offloading JAVASCRIPT to background thread...")
                       (js "info");
                 WorkerPost (js "1")] fresh).
Proof.
  apply execute_javascript; [by vm_compute|reflexivity|vm_compute; reflexivity].
Defined.

(** An engine that is none of javascript, python, cpp and rust: after a
    miss [execute] prints ["Runtime not found."], and nothing is requested
    or stored. *)
Theorem execute_unknown_engine env nodes engine code w :
  trim code <> [] ->
  engine <> js "javascript" -> engine <> js "python" ->
  engine <> js "cpp" -> engine <> js "rust" ->
  truthy (default VUndef
            (execution_results w !! AuraRunner.codeHash code engine)) = false ->
  AuraRunner.execute env nodes (Some engine) code w
  = (Ret tt,
     add_events [Print (js "Offloading " ++ toUpperCase engine
                          ++ js " to background thread...") (js "info");
                 Print (js "Runtime not found.") (js "error")] w).
Proof.
  intros Hcode Hjs Hpy Hcpp Hrust Hmiss. unfold AuraRunner.execute.
  destruct (trim code) as [|c t]; [done|].
  cbv zeta. change (default (js "javascript") (Some engine)) with engine.
  rewrite bind_run, checkCache_run, Hmiss.
  rewrite bind_run, print_run. unfold try_catch.
  rewrite !bool_decide_eq_false_2 by done. cbn [orb].
  rewrite print_run. by rewrite add_events_app.
Qed.

Lemma execute_unknown_engine_witness :
  AuraRunner.execute env_55003 AuraComm.nodes (Some (js "go")) (js "x") fresh
  = (Ret tt,
     add_events [Print (js "Offloading GO to background thread...") (js "info");
                 Print (js "Runtime not found.") (js "error")] fresh).
Proof.
  apply (execute_unknown_engine env_55003 AuraComm.nodes (js "go") (js "x") fresh);
    by vm_compute.
Defined.

(** ** The order of the requests and the waits between them *)

Lemma waits_app l1 l2 : waits (l1 ++ l2) = waits l1 ++ waits l2.
Proof. apply omap_app. Qed.

Lemma handleResponse_quiet data w :
  exists r evs, AuraComm.handleResponse data w = (Ret r, add_events evs w)
                /\ requests evs = [] /\ waits evs = [].
Proof.
  unfold AuraComm.handleResponse, try_catch. mcases;
    try (eexists _, [_]; repeat split; reflexivity).
  exists None, []. by rewrite add_events_nil.
Qed.

Section ProbeOrder.

Variable env : Env.

(** Whatever the nodes answer, the loop tries a prefix of the ports, in
    order, waits once after each failed attempt, and returns. *)
Lemma probe_prefix lang path payload total ports : forall attempt w,
  exists n m r evs,
    AuraComm.probe env lang path payload total ports attempt w
      = (Ret r, add_events evs w)
    /\ requests evs =
         imap (fun i p => Fetch (AuraComm.url_of p path) payload
                            (AuraComm.timeout_of (S (attempt + i))))
              (take n ports)
    /\ waits evs =
         imap (fun i (_ : Z) => AuraComm.backoff_of (S (attempt + i)))
              (take m ports)
    /\ (m <= n <= S m)%nat /\ (n <= length ports)%nat.
Proof.
  induction ports as [|port rest IH]; intros attempt w.
  - exists 0%nat, 0%nat. cbn [AuraComm.probe]. mrun.
    eexists _, [_]. repeat split; (reflexivity || cbn; lia).
  - cbn [AuraComm.probe]. rewrite bind_run, print_run.
    unfold try_catch. rewrite bind_run, tryPost_run.
    destruct (AuraComm.attempt_outcome _ _ _ _ _) as [body|e].
    + match goal with
      | |- context [AuraComm.handleResponse body ?w0] =>
          destruct (handleResponse_quiet body w0) as (r & evs & -> & Hreq & Hwait)
      end.
      rewrite !add_events_app. exists 1%nat, 0%nat, r. eexists.
      split; [reflexivity|].
      rewrite !requests_app, !waits_app, Hreq, Hwait.
      cbn. rewrite Nat.add_0_r. repeat split; lia.
    + mrun.
      match goal with
      | |- context [AuraComm.probe _ _ _ _ _ _ _ ?w0] =>
          destruct (IH (S attempt) w0)
            as (n & m & r & evs & -> & Hreq & Hwait & Hnm & Hn)
      end.
      rewrite !add_events_app. exists (S n), (S m), r. eexists.
      split; [reflexivity|].
      rewrite !requests_app, !waits_app, Hreq, Hwait.
      cbn [requests List.filter is_fetch waits omap app length firstn take].
      rewrite !imap_cons, !Nat.add_0_r. repeat split; try lia.
      * cbn. f_equal. apply imap_ext. intros i p _. cbn. do 2 f_equal. lia.
      * cbn. f_equal. apply imap_ext. intros i p _. cbn. do 2 f_equal. lia.
Qed.

(** When every port fails the loop waits once per port, also after the
    last one. *)
Lemma probe_exhausted_waits lang path payload total ports : forall attempt w,
  (forall i port, ports !! i = Some port ->
     exists e, AuraComm.attempt_outcome env (length (requests (log w)) + i)
                 (AuraComm.url_of port path) payload
                 (AuraComm.timeout_of (S (attempt + i))) = inr e) ->
  exists r evs,
    AuraComm.probe env lang path payload total ports attempt w
      = (Ret r, add_events evs w)
    /\ waits evs =
         imap (fun i (_ : Z) => AuraComm.backoff_of (S (attempt + i))) ports.
Proof.
  induction ports as [|port rest IH]; intros attempt w Hfail.
  - cbn [AuraComm.probe]. mrun. by eexists _, [_].
  - destruct (Hfail 0%nat port eq_refl) as [e He].
    rewrite !Nat.add_0_r in He.
    cbn [AuraComm.probe]. rewrite bind_run, print_run.
    unfold try_catch. rewrite bind_run, tryPost_run.
    cbn [add_events log]. rewrite requests_app, app_nil_r, He.
    mrun. rewrite !add_events_app.
    match goal with
    | |- context [AuraComm.probe _ _ _ _ _ _ _ ?w0] =>
        destruct (IH (S attempt) w0) as (r & evs & -> & Hwait)
    end.
    { intros i p Hp. cbn [add_events log]. rewrite requests_app.
      cbn [requests List.filter is_fetch app]. rewrite length_app.
      cbn [length]. replace (length (requests (log w)) + 1 + i)%nat
        with (length (requests (log w)) + S i)%nat by lia.
      replace (S attempt + i)%nat with (attempt + S i)%nat by lia.
      by apply Hfail. }
    rewrite add_events_app. eexists _, _. split; [reflexivity|].
    rewrite !waits_app, Hwait. cbn [waits omap app].
    rewrite imap_cons, Nat.add_0_r. f_equal.
    apply imap_ext. intros i p _. cbn. f_equal. lia.
Qed.

End ProbeOrder.

Lemma backoff_sum ports : forall attempt,
  foldr Z.add 0%Z
    (imap (fun i (_ : Z) => AuraComm.backoff_of (S (attempt + i))) ports)
  = (Z.of_nat (length ports) * (250 + 50 * Z.of_nat attempt)
     + 25 * Z.of_nat (length ports) * (Z.of_nat (length ports) - 1))%Z.
Proof.
  induction ports as [|p rest IH]; intros attempt; [reflexivity|].
  rewrite imap_cons. cbn [foldr length].
  rewrite (imap_ext _ (fun i (_ : Z) => AuraComm.backoff_of (S (S attempt + i)))).
  - rewrite IH. unfold AuraComm.backoff_of. nia.
  - intros i x _. cbn. f_equal. lia.
Qed.

(** Whatever the nodes answer, a [dispatch] of an encodable source to an
    engine with a port array returns, and until then it has tried the
    first [n] ports of the array, in order, each once, all with the one
    payload built at the start, attempt [i] with timeout [4000 + 500 i];
    it has waited [200 + 50 i] ms after failed attempt [i], so [n - 1] or
    [n] times. *)
Theorem dispatch_probes_in_order env nodes lang source b64 ports w :
  btoa source = Some b64 ->
  AuraComm.lookup_ports nodes lang = AuraComm.Ports ports ->
  exists n m r evs,
    AuraComm.dispatch env nodes lang source w = (Ret r, add_events evs w)
    /\ requests evs =
         requests_for (AuraComm.path_of lang)
           (AuraComm.payload_of env (length (log w)) lang b64) (take n ports)
    /\ waits evs =
         imap (fun i (_ : Z) => AuraComm.backoff_of (S i)) (take m ports)
    /\ (m <= n <= S m)%nat /\ (n <= length ports)%nat.
Proof.
  intros Hb Hl. rewrite (dispatch_ports_run env _ _ _ _ _ _ Hb Hl).
  match goal with
  | |- context [AuraComm.probe _ ?l ?p ?pl ?t ?ps ?a ?w0] =>
      destruct (probe_prefix env l p pl t ps a w0)
        as (n & m & r & evs & -> & Hreq & Hwait & Hnm & Hn)
  end.
  rewrite add_events_app. exists n, m, r. eexists. split; [reflexivity|].
  rewrite requests_app, waits_app. cbn [requests List.filter is_fetch app].
  split; [exact Hreq|]. split; [exact Hwait|]. by split.
Qed.

Lemma dispatch_probes_in_order_witness :
  exists n m r evs,
    AuraComm.dispatch env_55003 AuraComm.nodes (js "python") (js "print(1)") fresh
      = (Ret r, add_events evs fresh)
    /\ requests evs =
         requests_for (js "/execute")
           (AuraComm.payload_of env_55003 0 (js "python") (js "cHJpbnQoMSk="))
           (take n (AuraComm.port_range 55000))
    /\ waits evs =
         imap (fun i (_ : Z) => AuraComm.backoff_of (S i))
              (take m (AuraComm.port_range 55000))
    /\ (m <= n <= S m)%nat /\ (n <= 10)%nat.
Proof.
  apply (dispatch_probes_in_order env_55003 AuraComm.nodes (js "python")
           (js "print(1)") (js "cHJpbnQoMSk=") (AuraComm.port_range 55000) fresh);
    vm_compute; reflexivity.
Defined.

(** When every candidate fails, [dispatch] waits once per candidate, also
    after the last one, [200 + 50 i] ms after attempt [i]: with [N]
    candidates, [225 N + 25 N^2] ms in all. *)
Theorem dispatch_waits_when_all_fail env nodes lang source b64 ports w :
  btoa source = Some b64 ->
  AuraComm.lookup_ports nodes lang = AuraComm.Ports ports ->
  (forall i port, ports !! i = Some port ->
     exists e, AuraComm.attempt_outcome env (length (requests (log w)) + i)
                 (AuraComm.url_of port (AuraComm.path_of lang))
                 (AuraComm.payload_of env (length (log w)) lang b64)
                 (AuraComm.timeout_of (S i)) = inr e) ->
  exists r evs,
    AuraComm.dispatch env nodes lang source w = (Ret r, add_events evs w)
    /\ waits evs = imap (fun i (_ : Z) => (250 + 50 * Z.of_nat i)%Z) ports
    /\ foldr Z.add 0%Z (waits evs)
       = (225 * Z.of_nat (length ports)
          + 25 * Z.of_nat (length ports) * Z.of_nat (length ports))%Z.
Proof.
  intros Hb Hl Hfail. rewrite (dispatch_ports_run env _ _ _ _ _ _ Hb Hl).
  match goal with
  | |- context [AuraComm.probe _ ?l ?p ?pl ?t ?ps ?a ?w0] =>
      destruct (probe_exhausted_waits env l p pl t ps a w0)
        as (r & evs & -> & Hwait)
  end.
  { intros i port Hp. cbn [add_events log]. rewrite requests_app, app_nil_r.
    by apply Hfail. }
  rewrite add_events_app. exists r. eexists. split; [reflexivity|].
  rewrite waits_app.
  change (waits [_; _] ++ waits evs) with (waits evs). rewrite Hwait. split.
  - apply imap_ext. intros i p _. unfold AuraComm.backoff_of. cbn [Nat.add]. lia.
  - rewrite (backoff_sum ports 0). lia.
Qed.

(** With no node listening, the ten failed attempts for cpp cost 4750 ms
    of waiting. *)
Lemma dispatch_waits_when_all_fail_witness :
  exists r evs,
    AuraComm.dispatch env_down AuraComm.nodes (js "cpp") (js "x") fresh
      = (Ret r, add_events evs fresh)
    /\ foldr Z.add 0%Z (waits evs) = 4750%Z.
Proof.
  destruct (dispatch_waits_when_all_fail env_down AuraComm.nodes (js "cpp")
              (js "x") (js "eA==") (AuraComm.port_range 56000) fresh)
    as (r & evs & Hrun & _ & Hsum).
  - vm_compute; reflexivity.
  - vm_compute; reflexivity.
  - intros i port _. eexists. reflexivity.
  - exists r, evs. split; [exact Hrun|]. rewrite Hsum. reflexivity.
Defined.

(** ** The cache key *)

Lemma be_bytes_length n : forall x, length (SHA256.be_bytes n x) = n.
Proof.
  induction n as [|n IH]; intros x; [reflexivity|].
  cbn [SHA256.be_bytes]. rewrite length_app, IH. cbn. lia.
Qed.

Lemma be_bytes_range n : forall x, Forall (fun b => b < 256) (SHA256.be_bytes n x).
Proof.
  induction n as [|n IH]; intros x; [constructor|].
  cbn [SHA256.be_bytes]. apply Forall_app. split; [apply IH|].
  repeat constructor. by apply N.mod_lt.
Qed.

Lemma round_length st kw : length (SHA256.round st kw) = length st.
Proof.
  destruct st as [|a [|b [|c [|d [|e [|f [|g [|h [|i t]]]]]]]]]; reflexivity.
Qed.

Lemma rounds_length kws : forall st,
  length (fold_left SHA256.round kws st) = length st.
Proof.
  induction kws as [|kw kws IH]; intros st; [reflexivity|].
  cbn [fold_left]. by rewrite IH, round_length.
Qed.

Lemma compress_length st block : length (SHA256.compress st block) = length st.
Proof.
  unfold SHA256.compress. cbv zeta.
  rewrite List.length_map, List.length_combine, rounds_length. lia.
Qed.

Lemma compress_all_length blocks : forall st,
  length (fold_left SHA256.compress blocks st) = length st.
Proof.
  induction blocks as [|b blocks IH]; intros st; [reflexivity|].
  cbn [fold_left]. by rewrite IH, compress_length.
Qed.

Lemma digest_length msg : length (SHA256.digest msg) = 32%nat.
Proof.
  unfold SHA256.digest. cbv zeta.
  pose proof (compress_all_length
                (SHA256.chunks (length (SHA256.pad msg)) 64 (SHA256.pad msg))
                SHA256.H0) as Hlen.
  change (length SHA256.H0) with 8%nat in Hlen. revert Hlen.
  generalize (fold_left SHA256.compress
                (SHA256.chunks (length (SHA256.pad msg)) 64 (SHA256.pad msg))
                SHA256.H0).
  intros l Hlen.
  assert (Hflat : forall l', length (flat_map (SHA256.be_bytes 4) l')
                             = (4 * length l')%nat).
  { induction l' as [|x l' IH]; [reflexivity|].
    cbn [flat_map]. rewrite length_app, IH, be_bytes_length. cbn [length]. lia. }
  rewrite Hflat, Hlen. reflexivity.
Qed.

Lemma digest_range msg : Forall (fun b => b < 256) (SHA256.digest msg).
Proof.
  unfold SHA256.digest. cbv zeta.
  generalize (fold_left SHA256.compress
                (SHA256.chunks (length (SHA256.pad msg)) 64 (SHA256.pad msg))
                SHA256.H0).
  induction l as [|x l IH]; [constructor|].
  cbn [flat_map]. apply Forall_app. split; [apply be_bytes_range|exact IH].
Qed.

Lemma hex_digit_hex d : d < 16 -> In (hex_digit d) (js "0123456789abcdef").
Proof.
  intros Hd. unfold hex_digit. apply nth_In.
  change (length (js "0123456789abcdef")) with 16%nat. lia.
Qed.

(** The key of every request is a string of exactly 64 lower-case
    hexadecimal digits, whatever the length and the characters of the
    source and the engine name. *)
Theorem hash_is_hex_digest text :
  length (AuraRunner.hash text) = 64%nat
  /\ Forall (fun c => In c (js "0123456789abcdef")) (AuraRunner.hash text).
Proof.
  unfold AuraRunner.hash.
  pose proof (digest_length (utf8_encode text)) as Hlen.
  pose proof (digest_range (utf8_encode text)) as Hrange.
  revert Hlen Hrange. generalize (SHA256.digest (utf8_encode text)).
  intros bytes Hlen Hrange. split.
  - assert (Hflat : forall l, length (flat_map hex_byte l) = (2 * length l)%nat).
    { induction l as [|x l IH]; [reflexivity|]. cbn [flat_map hex_byte app length].
      rewrite IH. lia. }
    rewrite Hflat, Hlen. reflexivity.
  - clear Hlen. induction Hrange as [|b bytes' Hb _ IH]; [constructor|].
    cbn [flat_map hex_byte app].
    constructor; [|constructor; [|exact IH]]; apply hex_digit_hex.
    + apply N.Div0.div_lt_upper_bound. lia.
    + by apply N.mod_lt.
Qed.

(** ** The bridge decodes what the page encodes *)

(** The decoder on the snippet that the bridge's own [main] decodes. *)
Example base64_decode_mock_source :
  Bridge.base64_decode
    (js "I2luY2x1ZGUgPGlvc3RyZWFtPgp1c2luZyBuYW1lc3BhY2Ugc3RkOwppbnQgbWFpbigpIHsKICAgIGNvdXQgPDwgIkhlbGxvIEZyb20gQXVyYUNvZGUiIDw8IGVuZGw7CiAgICByZXR1cm4gMDsKfQ==")
  = js "#include <iostream>" ++ [10] ++ js "using namespace std;" ++ [10]
    ++ js "int main() {" ++ [10] ++ js "    cout << " ++ [34]
    ++ js "Hello From AuraCode" ++ [34] ++ js " << endl;" ++ [10]
    ++ js "    return 0;" ++ [10] ++ js "}".
Proof. vm_compute; reflexivity. Qed.

Lemma list_ind3 {A} (P : list A -> Prop) :
  P [] -> (forall a, P [a]) -> (forall a b, P [a; b]) ->
  (forall a b c l, P l -> P (a :: b :: c :: l)) ->
  forall l, P l.
Proof.
  intros H0 H1 H2 H3 l.
  assert (P l /\ (forall a, P (a :: l)) /\ (forall a b, P (a :: b :: l)))
    as [H _]; [|exact H].
  induction l as [|x l (IH0 & IH1 & IH2)]; [by repeat split|].
  split; [apply IH1|]. split; [intros a; apply IH2|].
  intros a b. by apply H3.
Qed.

(** The table maps each of the 64 characters to its index. *)
Lemma T_at_alphabet i : i < 64 -> Bridge.T_at (b64_char i) = Z.of_N i.
Proof.
  intros Hi.
  assert (Hall : forallb (fun k => (Bridge.T_at (b64_char (N.of_nat k))
                                    =? Z.of_nat k)%Z) (seq 0 64) = true)
    by (vm_compute; reflexivity).
  rewrite forallb_forall in Hall.
  specialize (Hall (N.to_nat i)). rewrite N2Nat.id in Hall.
  rewrite N_nat_Z in Hall. apply Z.eqb_eq, Hall, in_seq. lia.
Qed.

Lemma byte_at v k :
  (0 <= k)%Z -> Z.land (Z.shiftr v k) 255 = ((v / 2 ^ k) mod 256)%Z.
Proof.
  intros Hk. rewrite Z.shiftr_div_pow2 by done.
  change 255%Z with (Z.ones 8). by rewrite Z.land_ones.
Qed.

(** One turn of the loop on a character of the alphabet. *)
Lemma decode_step c rest val valb out i :
  Bridge.T_at c = Z.of_N i ->
  Bridge.decode_loop (c :: rest) val valb out =
    if (0 <=? valb + 6)%Z
    then Bridge.decode_loop rest (Bridge.int32 (val * 64 + Z.of_N i))
           (valb + 6 - 8)
           (out ++ [Z.to_N ((Bridge.int32 (val * 64 + Z.of_N i)
                             / 2 ^ (valb + 6)) mod 256)])
    else Bridge.decode_loop rest (Bridge.int32 (val * 64 + Z.of_N i))
           (valb + 6) out.
Proof.
  intros HT. cbn [Bridge.decode_loop]. rewrite HT.
  destruct (Z.eqb_spec (Z.of_N i) (-1)); [lia|]. cbv zeta.
  rewrite Z.shiftl_mul_pow2 by done. change (2 ^ 6)%Z with 64%Z.
  destruct (Z.leb_spec 0 (valb + 6)); [|done]. by rewrite byte_at.
Qed.

Section DecodeArithmetic.

Local Open Scope Z_scope.

Lemma low_6 v i : 0 <= i < 64 -> Bridge.int32 (v * 64 + i) mod 64 = i.
Proof. intros. unfold Bridge.int32. Z.div_mod_to_equations; lia. Qed.

Lemma low_12 v r i :
  v mod 64 = r -> 0 <= i < 64 -> Bridge.int32 (v * 64 + i) mod 4096 = r * 64 + i.
Proof. intros. unfold Bridge.int32. Z.div_mod_to_equations; lia. Qed.

Lemma low_18 v r i :
  v mod 4096 = r -> 0 <= i < 64 ->
  Bridge.int32 (v * 64 + i) mod 262144 = r * 64 + i.
Proof. intros. unfold Bridge.int32. Z.div_mod_to_equations; lia. Qed.

Lemma low_24 v r i :
  v mod 262144 = r -> 0 <= i < 64 ->
  Bridge.int32 (v * 64 + i) mod 16777216 = r * 64 + i.
Proof. intros. unfold Bridge.int32. Z.div_mod_to_equations; lia. Qed.

Lemma byte_1 v m : v mod 4096 = m -> (v / 2 ^ 4) mod 256 = m / 16.
Proof. intros. change (2 ^ 4) with 16. Z.div_mod_to_equations; lia. Qed.

Lemma byte_2 v m : v mod 262144 = m -> (v / 2 ^ 2) mod 256 = (m / 4) mod 256.
Proof. intros. change (2 ^ 2) with 4. Z.div_mod_to_equations; lia. Qed.

Lemma byte_3 v m : v mod 16777216 = m -> (v / 2 ^ 0) mod 256 = m mod 256.
Proof. intros. change (2 ^ 0) with 1. Z.div_mod_to_equations; lia. Qed.

End DecodeArithmetic.

(** The four sextets of three bytes, and the bytes back from them. *)
Lemma sextets a b c :
  a < 256 -> b < 256 -> c < 256 ->
  let n := a * 65536 + b * 256 + c in
  n / 262144 < 64 /\ (n / 4096) mod 64 < 64
  /\ (n / 64) mod 64 < 64 /\ n mod 64 < 64
  /\ ((Z.of_N (n / 262144) * 64 + Z.of_N ((n / 4096) mod 64)) / 16
      = Z.of_N a)%Z
  /\ ((((Z.of_N (n / 262144) * 64 + Z.of_N ((n / 4096) mod 64)) * 64
        + Z.of_N ((n / 64) mod 64)) / 4) mod 256 = Z.of_N b)%Z
  /\ ((((Z.of_N (n / 262144) * 64 + Z.of_N ((n / 4096) mod 64)) * 64
        + Z.of_N ((n / 64) mod 64)) * 64 + Z.of_N (n mod 64)) mod 256
      = Z.of_N c)%Z.
Proof.
  intros Ha Hb Hc n. subst n.
  repeat split; zify; Z.to_euclidean_division_equations; lia.
Qed.

(** Four characters that encode three bytes give the three bytes back,
    from any value of the accumulator. *)
Lemma decode_group a b c rest val out :
  a < 256 -> b < 256 -> c < 256 ->
  exists val',
    Bridge.decode_loop
      (b64_char ((a * 65536 + b * 256 + c) / 262144)
       :: b64_char (((a * 65536 + b * 256 + c) / 4096) mod 64)
       :: b64_char (((a * 65536 + b * 256 + c) / 64) mod 64)
       :: b64_char ((a * 65536 + b * 256 + c) mod 64) :: rest)
      val (-8) out
    = Bridge.decode_loop rest val' (-8) (out ++ [a; b; c]).
Proof.
  intros Ha Hb Hc.
  destruct (sextets a b c Ha Hb Hc) as (H1 & H2 & H3 & H4 & Ea & Eb & Ec).
  cbv zeta in *.
  set (i1 := (a * 65536 + b * 256 + c) / 262144) in *.
  set (i2 := ((a * 65536 + b * 256 + c) / 4096) mod 64) in *.
  set (i3 := ((a * 65536 + b * 256 + c) / 64) mod 64) in *.
  set (i4 := (a * 65536 + b * 256 + c) mod 64) in *.
  assert (R1 : (0 <= Z.of_N i1 < 64)%Z) by lia.
  assert (R2 : (0 <= Z.of_N i2 < 64)%Z) by lia.
  assert (R3 : (0 <= Z.of_N i3 < 64)%Z) by lia.
  assert (R4 : (0 <= Z.of_N i4 < 64)%Z) by lia.
  rewrite (decode_step _ _ _ _ _ _ (T_at_alphabet _ H1)).
  change (0 <=? -8 + 6)%Z with false. cbv iota. change (-8 + 6)%Z with (-2)%Z.
  rewrite (decode_step _ _ _ _ _ _ (T_at_alphabet _ H2)).
  change (0 <=? -2 + 6)%Z with true. cbv iota.
  change (-2 + 6 - 8)%Z with (-4)%Z. change (-2 + 6)%Z with 4%Z.
  rewrite (decode_step _ _ _ _ _ _ (T_at_alphabet _ H3)).
  change (0 <=? -4 + 6)%Z with true. cbv iota.
  change (-4 + 6 - 8)%Z with (-6)%Z. change (-4 + 6)%Z with 2%Z.
  rewrite (decode_step _ _ _ _ _ _ (T_at_alphabet _ H4)).
  change (0 <=? -6 + 6)%Z with true. cbv iota.
  change (-6 + 6 - 8)%Z with (-8)%Z. change (-6 + 6)%Z with 0%Z.
  eexists. f_equal. rewrite <- !app_assoc. f_equal. cbn [app].
  pose proof (low_6 val _ R1) as L1.
  pose proof (low_12 _ _ _ L1 R2) as L2.
  pose proof (low_18 _ _ _ L2 R3) as L3.
  pose proof (low_24 _ _ _ L3 R4) as L4.
  rewrite (byte_1 _ _ L2), (byte_2 _ _ L3), (byte_3 _ _ L4), Ea, Eb, Ec.
  by rewrite !N2Z.id.
Qed.

(** The two padded endings: one byte and two bytes. *)
Lemma decode_tail_1 a val out :
  a < 256 -> Bridge.decode_loop (b64_encode [a]) val (-8) out = out ++ [a].
Proof.
  intros Ha. cbn [b64_encode]. cbv zeta.
  replace (a * 65536) with (a * 65536 + 0 * 256 + 0) by lia.
  destruct (sextets a 0 0 Ha) as (H1 & H2 & _ & _ & Ea & _); [lia..|].
  cbv zeta in *.
  set (i1 := (a * 65536 + 0 * 256 + 0) / 262144) in *.
  set (i2 := ((a * 65536 + 0 * 256 + 0) / 4096) mod 64) in *.
  assert (R1 : (0 <= Z.of_N i1 < 64)%Z) by lia.
  assert (R2 : (0 <= Z.of_N i2 < 64)%Z) by lia.
  rewrite (decode_step _ _ _ _ _ _ (T_at_alphabet _ H1)).
  change (0 <=? -8 + 6)%Z with false. cbv iota. change (-8 + 6)%Z with (-2)%Z.
  rewrite (decode_step _ _ _ _ _ _ (T_at_alphabet _ H2)).
  change (0 <=? -2 + 6)%Z with true. cbv iota.
  change (-2 + 6 - 8)%Z with (-4)%Z. change (-2 + 6)%Z with 4%Z.
  cbn [Bridge.decode_loop]. change (Bridge.T_at 61) with (-1)%Z.
  change (-1 =? -1)%Z with true. cbv iota.
  pose proof (low_6 val _ R1) as L1.
  pose proof (low_12 _ _ _ L1 R2) as L2.
  by rewrite (byte_1 _ _ L2), Ea, N2Z.id.
Qed.

Lemma decode_tail_2 a b val out :
  a < 256 -> b < 256 ->
  Bridge.decode_loop (b64_encode [a; b]) val (-8) out = out ++ [a; b].
Proof.
  intros Ha Hb. cbn [b64_encode]. cbv zeta.
  replace (a * 65536 + b * 256) with (a * 65536 + b * 256 + 0) by lia.
  destruct (sextets a b 0 Ha Hb) as (H1 & H2 & H3 & _ & Ea & Eb & _); [lia|].
  cbv zeta in *.
  set (i1 := (a * 65536 + b * 256 + 0) / 262144) in *.
  set (i2 := ((a * 65536 + b * 256 + 0) / 4096) mod 64) in *.
  set (i3 := ((a * 65536 + b * 256 + 0) / 64) mod 64) in *.
  assert (R1 : (0 <= Z.of_N i1 < 64)%Z) by lia.
  assert (R2 : (0 <= Z.of_N i2 < 64)%Z) by lia.
  assert (R3 : (0 <= Z.of_N i3 < 64)%Z) by lia.
  rewrite (decode_step _ _ _ _ _ _ (T_at_alphabet _ H1)).
  change (0 <=? -8 + 6)%Z with false. cbv iota. change (-8 + 6)%Z with (-2)%Z.
  rewrite (decode_step _ _ _ _ _ _ (T_at_alphabet _ H2)).
  change (0 <=? -2 + 6)%Z with true. cbv iota.
  change (-2 + 6 - 8)%Z with (-4)%Z. change (-2 + 6)%Z with 4%Z.
  rewrite (decode_step _ _ _ _ _ _ (T_at_alphabet _ H3)).
  change (0 <=? -4 + 6)%Z with true. cbv iota.
  change (-4 + 6 - 8)%Z with (-6)%Z. change (-4 + 6)%Z with 2%Z.
  cbn [Bridge.decode_loop]. change (Bridge.T_at 61) with (-1)%Z.
  change (-1 =? -1)%Z with true. cbv iota.
  pose proof (low_6 val _ R1) as L1.
  pose proof (low_12 _ _ _ L1 R2) as L2.
  pose proof (low_18 _ _ _ L2 R3) as L3.
  rewrite (byte_1 _ _ L2), (byte_2 _ _ L3), Ea, Eb, !N2Z.id.
  by rewrite <- app_assoc.
Qed.

Lemma decode_encode s :
  Forall (fun c => c < 256) s ->
  forall val out, Bridge.decode_loop (b64_encode s) val (-8) out = out ++ s.
Proof.
  induction s as [|a|a b|a b c rest IH] using list_ind3; intros Hs val out.
  - cbn. by rewrite app_nil_r.
  - apply decode_tail_1. by inversion Hs.
  - inversion Hs as [|? ? Ha Hs']. inversion Hs'. by apply decode_tail_2.
  - inversion Hs as [|? ? Ha Hs1]. inversion Hs1 as [|? ? Hb Hs2].
    inversion Hs2 as [|? ? Hc Hrest]. subst.
    cbn [b64_encode]. cbv zeta. cbn [app].
    destruct (decode_group a b c (b64_encode rest) val out Ha Hb Hc)
      as (val' & ->).
    rewrite (IH Hrest). by rewrite <- app_assoc.
Qed.

(** The round trip of the wire: the bridge's [base64_decode] gives back
    every source that [btoa] can encode, byte for byte. *)
Theorem base64_round_trip source b64 :
  btoa source = Some b64 -> Bridge.base64_decode b64 = source.
Proof.
  unfold btoa. destruct (forallb _ source) eqn:Hall; [|done].
  intros [= <-]. unfold Bridge.base64_decode.
  rewrite decode_encode; [done|].
  apply Forall_forall. intros c Hc. rewrite forallb_forall in Hall.
  apply list_elem_of_In, Hall, N.leb_le in Hc. lia.
Qed.

Lemma base64_round_trip_witness :
  Bridge.base64_decode (js "cHJpbnQoMSk=") = js "print(1)".
Proof. apply base64_round_trip. vm_compute; reflexivity. Defined.

Lemma decode_loop_stops c rest s : forall val valb out,
  Bridge.T_at c = (-1)%Z ->
  Bridge.decode_loop (s ++ c :: rest) val valb out
  = Bridge.decode_loop s val valb out.
Proof.
  induction s as [|d s IH]; intros val valb out Hc.
  - cbn [app Bridge.decode_loop]. by rewrite Hc.
  - cbn [app Bridge.decode_loop]. destruct (Bridge.T_at d =? -1)%Z; [done|].
    cbv zeta. destruct (0 <=? valb + 6)%Z; by apply IH.
Qed.

(** The decoder never fails on bad input: it stops at the first byte that
    is not one of the 64 characters (the padding [=], a line break, any
    other byte) and silently drops everything after it. *)
Theorem base64_decode_stops input c rest :
  Bridge.T_at c = (-1)%Z ->
  Bridge.base64_decode (input ++ c :: rest) = Bridge.base64_decode input.
Proof. intros Hc. by apply decode_loop_stops. Qed.

Lemma base64_decode_stops_witness :
  Bridge.base64_decode (js "cHJp" ++ 10 :: js "bnQoMSk=") = js "pri".
Proof.
  rewrite (base64_decode_stops (js "cHJp") 10 (js "bnQoMSk="));
    vm_compute; reflexivity.
Defined.

(** ** The Pyodide fallback of python *)

Section PyodideFallback.

Variable env : Env.
Variable nodes : gmap jsstring (list Z).

(** What the fallback does before it runs the code: nothing when Pyodide
    is loaded, else one line and the load. *)
Lemma wasm_fallback_run code key w :
  (forall t, loadPyodide env t = None) ->
  (forall t, loadPackage env t = None) ->
  AuraRunner.wasm_fallback env code key w =
    match runPythonAsync env
            (length (log w ++ (if pyodide w then []
                               else [Print (js "WASM Warming up...") (js "info");
                                     PyodideLoad])))
            code with
    | PyRaise msg =>
        (Throw msg,
         mkWorld (log w ++ (if pyodide w then []
                            else [Print (js "WASM Warming up...") (js "info");
                                  PyodideLoad])
                    ++ [PyodideRun code])
                 (execution_results w) true)
    | r =>
        let text := match r with PyValue text => text | _ => js "Done" end in
        (Ret tt,
         mkWorld (log w ++ (if pyodide w then []
                            else [Print (js "WASM Warming up...") (js "info");
                                  PyodideLoad])
                    ++ [PyodideRun code; Print text (js "success")])
                 (<[key := VStr text]> (execution_results w)) true)
    end.
Proof.
  intros Hload Hpkg.
  unfold AuraRunner.wasm_fallback, AuraRunner.warm_up, AuraRunner.run_pyodide,
    clock, throw.
  rewrite bind_run. cbv beta iota. destruct (pyodide w) eqn:Hp.
  - rewrite app_nil_r. mrun_store. rewrite Hp.
    destruct (runPythonAsync env (length (log w)) code); mrun_store;
      by rewrite <- ?app_assoc.
  - mrun_store. rewrite Hload. mrun_store. rewrite Hpkg. mrun_store.
    rewrite <- !app_assoc. cbn [app].
    destruct (runPythonAsync env _ code); mrun_store;
      by rewrite <- ?app_assoc.
Qed.

End PyodideFallback.

(** When the native python node gives no successful result (a failed
    result, [undefined] or an exception) and Pyodide works, [execute] runs
    the code in Pyodide, loading it first only if it is not loaded yet,
    stores the text of the result (["Done"] for [undefined]) under the
    key, and prints it last. *)
Theorem python_falls_back_to_pyodide env nodes code w result :
  trim code <> [] ->
  truthy (default VUndef
            (execution_results w !! AuraRunner.codeHash code (js "python")))
    = false ->
  entry_after_miss (js "python")
    (fst (AuraComm.dispatch env nodes (js "python") code
            (before_dispatch (js "python") w))) = None ->
  (forall t, loadPyodide env t = None) ->
  (forall t, loadPackage env t = None) ->
  (forall t, runPythonAsync env t code = result) ->
  (forall msg, result <> PyRaise msg) ->
  exists evs,
    AuraRunner.execute env nodes (Some (js "python")) code w =
      (Ret tt,
       mkWorld
         (log w ++ evs
            ++ (if pyodide w then []
                else [Print (js "WASM Warming up...") (js "info"); PyodideLoad])
            ++ [PyodideRun code;
                Print (match result with PyValue text => text | _ => js "Done" end)
                      (js "success")])
         (<[AuraRunner.codeHash code (js "python")
            := VStr (match result with PyValue text => text | _ => js "Done" end)]>
            (execution_results w))
         true).
Proof.
  intros Hcode Hmiss Hnone Hload Hpkg Hrun Hok.
  rewrite (execute_miss_python env nodes _ _ Hcode Hmiss). unfold try_catch.
  change (before_dispatch (js "python") w)
    with (add_events [Print (js "Offloading " ++ toUpperCase (js "python")
                               ++ js " to background thread...")
                            (js "info")] w) in Hnone.
  match type of Hnone with
  | context [AuraComm.dispatch _ _ _ _ ?w0] =>
      destruct (logs_only_dispatch env nodes (js "python") code w0)
        as (o & evs & Hd)
  end.
  rewrite Hd in Hnone. cbn [fst] in Hnone.
  rewrite (runPython_fallback env nodes _ _ _ _ _ Hd Hnone).
  rewrite (wasm_fallback_run env _ _ _ Hload Hpkg), Hrun.
  cbn [add_events log execution_results pyodide].
  eexists (_ :: evs).
  destruct result as [msg| |text]; [by destruct (Hok msg)|..]; cbv zeta iota;
    by rewrite <- !app_assoc.
Qed.

Lemma python_falls_back_to_pyodide_witness :
  execution_results
    (snd (AuraRunner.execute env_down AuraComm.nodes (Some (js "python"))
            (js "1+1") fresh))
    !! AuraRunner.codeHash (js "1+1") (js "python")
  = Some (VStr (js "Done")).
Proof.
  destruct (python_falls_back_to_pyodide env_down AuraComm.nodes (js "1+1")
              fresh PyUndefined) as (evs & Hrun).
  - by vm_compute.
  - vm_compute; reflexivity.
  - vm_compute; reflexivity.
  - reflexivity.
  - reflexivity.
  - reflexivity.
  - discriminate.
  - rewrite Hrun. apply lookup_insert_eq.
Defined.

(** When the native python node gives no successful result and the code
    raises in Pyodide, nothing is stored: [execute] prints
    ["Thread Exception: "] with the message, and the next call for the
    same request starts over. *)
Theorem python_failure_not_cached env nodes code w msg :
  trim code <> [] ->
  truthy (default VUndef
            (execution_results w !! AuraRunner.codeHash code (js "python")))
    = false ->
  entry_after_miss (js "python")
    (fst (AuraComm.dispatch env nodes (js "python") code
            (before_dispatch (js "python") w))) = None ->
  (forall t, loadPyodide env t = None) ->
  (forall t, loadPackage env t = None) ->
  (forall t, runPythonAsync env t code = PyRaise msg) ->
  exists evs,
    AuraRunner.execute env nodes (Some (js "python")) code w =
      (Ret tt,
       mkWorld (log w ++ evs
                  ++ [Print (js "Thread Exception: " ++ msg) (js "error")])
               (execution_results w) true).
Proof.
  intros Hcode Hmiss Hnone Hload Hpkg Hrun.
  rewrite (execute_miss_python env nodes _ _ Hcode Hmiss). unfold try_catch.
  change (before_dispatch (js "python") w)
    with (add_events [Print (js "Offloading " ++ toUpperCase (js "python")
                               ++ js " to background thread...")
                            (js "info")] w) in Hnone.
  match type of Hnone with
  | context [AuraComm.dispatch _ _ _ _ ?w0] =>
      destruct (logs_only_dispatch env nodes (js "python") code w0)
        as (o & evs & Hd)
  end.
  rewrite Hd in Hnone. cbn [fst] in Hnone.
  rewrite (runPython_fallback env nodes _ _ _ _ _ Hd Hnone).
  rewrite (wasm_fallback_run env _ _ _ Hload Hpkg), Hrun.
  rewrite print_run. cbn [add_events log execution_results pyodide].
  exists ([Print (js "Offloading " ++ toUpperCase (js "python")
                    ++ js " to background thread...") (js "info")]
          ++ evs
          ++ (if pyodide w then []
              else [Print (js "WASM Warming up...") (js "info"); PyodideLoad])
          ++ [PyodideRun code]).
  unfold add_events. cbn [log execution_results pyodide].
  by rewrite <- !app_assoc.
Qed.

Lemma python_failure_not_cached_witness :
  execution_results
    (snd (AuraRunner.execute
            (mkEnv (fun _ => 0%Z) (fun _ => js "0")
                   (fun _ _ _ => Unreachable (js "Failed to fetch"))
                   (js "aborted") (fun _ => None) (fun _ => None)
                   (fun _ _ => PyRaise (js "NameError")))
            AuraComm.nodes (Some (js "python")) (js "x") fresh))
    !! AuraRunner.codeHash (js "x") (js "python")
  = None.
Proof.
  destruct (python_failure_not_cached
              (mkEnv (fun _ => 0%Z) (fun _ => js "0")
                     (fun _ _ _ => Unreachable (js "Failed to fetch"))
                     (js "aborted") (fun _ => None) (fun _ => None)
                     (fun _ _ => PyRaise (js "NameError")))
              AuraComm.nodes (js "x") fresh (js "NameError")) as (evs & Hrun).
  - by vm_compute.
  - vm_compute; reflexivity.
  - vm_compute; reflexivity.
  - reflexivity.
  - reflexivity.
  - reflexivity.
  - rewrite Hrun. apply lookup_empty.
Defined.

(** ** What [dispatch] leaves alone, and when it throws *)

(** [dispatch] owns no state: whatever it returns or throws, it has only
    appended to the terminal and network log; the store and Pyodide are
    as before. *)
Theorem dispatch_keeps_store env nodes lang source w :
  let w' := snd (AuraComm.dispatch env nodes lang source w) in
  (exists evs, log w' = log w ++ evs)
  /\ execution_results w' = execution_results w
  /\ pyodide w' = pyodide w.
Proof.
  destruct (logs_only_dispatch env nodes lang source w) as (o & evs & Hrun).
  cbv zeta. rewrite Hrun. cbn [snd add_events log execution_results pyodide].
  eauto.
Qed.

(** An engine name that is no node but a member of [Object.prototype]
    (such as [constructor] or [toString]) does not fall back to python:
    [this.nodes[lang]] reads the inherited member, which is truthy and not
    iterable, so [dispatch] prints two lines and throws without a single
    request. *)
Theorem dispatch_inherited_name_throws env nodes lang len source b64 w :
  nodes !! lang = None ->
  assoc lang AuraComm.Object_prototype = Some len ->
  btoa source = Some b64 ->
  exists evs,
    AuraComm.dispatch env nodes lang source w
      = (Throw (js "ports is not iterable"), add_events evs w)
    /\ requests evs = [] /\ length evs = 2%nat.
Proof.
  intros Hown Hproto Hb. unfold AuraComm.dispatch, AuraComm.lookup_ports.
  rewrite bind_run. cbn [clock]. rewrite Hb, Hown, Hproto. mrun.
  unfold throw. rewrite add_events_app. by eexists.
Qed.

Lemma dispatch_inherited_name_throws_witness :
  exists evs,
    AuraComm.dispatch env_55003 AuraComm.nodes (js "toString") (js "x") fresh
      = (Throw (js "ports is not iterable"), add_events evs fresh)
    /\ requests evs = [] /\ length evs = 2%nat.
Proof.
  apply (dispatch_inherited_name_throws env_55003 AuraComm.nodes (js "toString")
           (VNum 0) (js "x") (js "eA==") fresh); vm_compute; reflexivity.
Defined.

(** ** The command line *)

Lemma split_no_sep sep s :
  sep ∉ s -> AuraTerminal.split sep s = [s].
Proof.
  induction s as [|c s IH]; intros Hs; [done|].
  apply not_elem_of_cons in Hs as [Hc Hs].
  cbn [AuraTerminal.split].
  destruct (N.eqb_spec c sep) as [->|_]; [done|].
  by rewrite IH.
Qed.

Lemma split_app_sep sep a rest :
  sep ∉ a ->
  AuraTerminal.split sep (a ++ sep :: rest) = a :: AuraTerminal.split sep rest.
Proof.
  induction a as [|c a IH]; intros Ha; cbn [app AuraTerminal.split].
  - by rewrite N.eqb_refl.
  - apply not_elem_of_cons in Ha as [Hc Ha].
    destruct (N.eqb_spec c sep) as [->|_]; [done|].
    by rewrite IH.
Qed.

Lemma split_snoc sep prefix seg :
  sep ∉ seg ->
  exists first rest,
    AuraTerminal.split sep (prefix ++ sep :: seg) = (first :: rest) ++ [seg].
Proof.
  intros Hseg.
  induction prefix as [|c prefix (first & rest & IH)]; cbn [app AuraTerminal.split].
  - rewrite N.eqb_refl, split_no_sep by done. by exists [], [].
  - rewrite IH. destruct (c =? sep).
    + by exists [], (first :: rest).
    + by exists (c :: first), rest.
Qed.

Lemma split_pop sep prefix seg :
  sep ∉ seg ->
  AuraTerminal.pop (AuraTerminal.split sep (prefix ++ sep :: seg)) = seg.
Proof.
  intros Hseg. destruct (split_snoc sep prefix seg Hseg) as (first & rest & ->).
  unfold AuraTerminal.pop. by rewrite last_snoc.
Qed.

Lemma strip_git_suffix name :
  AuraTerminal.strip_git (name ++ js ".git") = name.
Proof.
  unfold AuraTerminal.strip_git.
  replace (length (name ++ js ".git") - 4)%nat with (length name)
    by (rewrite length_app; change (length (js ".git")) with 4%nat; lia).
  rewrite drop_app_length, take_app_length.
  by rewrite bool_decide_eq_true_2.
Qed.

Lemma trim_fixed a rest init z :
  a :: rest = init ++ [z] ->
  is_whitespace a = false -> is_whitespace z = false ->
  trim (a :: rest) = a :: rest.
Proof.
  intros Hshape Ha Hz. unfold trim. cbn [trimStart]. rewrite Ha, Hshape.
  rewrite rev_unit. cbn [trimStart]. rewrite Hz.
  by rewrite <- rev_unit, rev_involutive.
Qed.

Lemma trim_ends a front back :
  is_whitespace a = false -> word back ->
  trim (a :: front ++ back) = a :: front ++ back.
Proof.
  intros Ha [Hne Hback].
  destruct back as [|z init _] using rev_ind; [done|].
  unfold spaceless in Hback. rewrite Forall_app, Forall_singleton in Hback.
  destruct Hback as [_ Hz].
  apply (trim_fixed a _ (a :: front ++ init) z); [|done..].
  cbn [app]. by rewrite <- app_assoc.
Qed.

Lemma spaceless_no_space s : spaceless s -> 32 ∉ s.
Proof.
  intros Hs Hin. unfold spaceless in Hs. rewrite Forall_forall in Hs.
  apply Hs in Hin. by vm_compute in Hin.
Qed.

(** What the page is once the line has been taken from the input field
    and echoed. *)
Lemma executeCommand_git_clone now_name now_clone repo p :
  word repo ->
  AuraTerminal.input p = js "git clone " ++ repo ->
  AuraTerminal.executeCommand now_name now_clone (js "Enter") p
  = (AuraTerminal.handleGit now_name now_clone (VStr (js "clone")) [repo]
       (AuraTerminal.print (js "git clone " ++ repo) (js "cmd")
          (AuraTerminal.mkPage (AuraTerminal.lines p) []
             (AuraTerminal.node_modules p) (AuraTerminal.node_modules_proto p)
             (AuraTerminal.saved p) (AuraTerminal.timers p))),
     None).
Proof.
  intros Hrepo Hinput.
  assert (Htrim : trim (js "git clone " ++ repo) = js "git clone " ++ repo)
    by exact (trim_ends 103 (js "it clone ") repo eq_refl Hrepo).
  assert (Hsplit : AuraTerminal.split 32 (js "git clone " ++ repo)
                   = [js "git"; js "clone"; repo]).
  { change (js "git clone " ++ repo)
      with (js "git" ++ 32 :: js "clone" ++ 32 :: repo).
    rewrite !split_app_sep by (apply (bool_decide_unpack _); by vm_compute).
    by rewrite split_no_sep by (apply spaceless_no_space, Hrepo). }
  unfold AuraTerminal.executeCommand.
  rewrite bool_decide_eq_true_2 by done.
  rewrite Hinput, Htrim, Hsplit.
  change (js "git clone " ++ repo) with (103 :: js "it clone " ++ repo) at 1.
  cbv iota. cbn [hd drop].
  change (bool_decide (js "git" = js "pip")) with false.
  change (bool_decide (js "git" = js "git")) with true.
  done.
Qed.

Lemma handleGit_clone now_name now_clone prefix seg p :
  47 ∉ seg ->
  AuraTerminal.handleGit now_name now_clone (VStr (js "clone"))
    [prefix ++ 47 :: seg] p
  = let name := match AuraTerminal.strip_git seg with
                | [] => js "repo-" ++ show_Z now_name
                | _ :: _ => AuraTerminal.strip_git seg
                end in
    AuraTerminal.print
      (js "git: " ++ name ++ js " mapped into vfs.node_modules." ++ name)
      (js "success")
      (AuraTerminal.saveVFS
         (AuraTerminal.assign name (clone_entry (prefix ++ 47 :: seg) now_clone) p)).
Proof.
  intros Hseg. unfold AuraTerminal.handleGit.
  change (strict_eq_string (VStr (js "clone")) (js "clone")) with true.
  cbn [negb]. rewrite split_pop by done.
  destruct prefix; cbn [app]; by destruct (AuraTerminal.strip_git seg).
Qed.

Lemma word_repository prefix seg :
  spaceless prefix -> spaceless seg -> word (prefix ++ 47 :: seg).
Proof.
  intros Hprefix Hseg. split; [by destruct prefix|].
  apply Forall_app. split; [done|]. by apply Forall_cons.
Qed.

(** [git clone <repo>], where the repository ends in [/<segment>]: the
    entry [{ repo, cloned_at }] is stored under the segment without one
    trailing [.git], the VFS is saved with it, and the terminal shows the
    line and the mapping. *)
Theorem git_clone_maps_repository now_name now_clone prefix seg p :
  spaceless prefix -> spaceless seg -> 47 ∉ seg ->
  AuraTerminal.strip_git seg <> [] ->
  AuraTerminal.strip_git seg <> js "__proto__" ->
  AuraTerminal.input p = js "git clone " ++ prefix ++ js "/" ++ seg ->
  let repo := prefix ++ js "/" ++ seg in
  let name := AuraTerminal.strip_git seg in
  let modules := <[name := clone_entry repo now_clone]> (AuraTerminal.node_modules p) in
  AuraTerminal.executeCommand now_name now_clone (js "Enter") p
  = (AuraTerminal.mkPage
       (AuraTerminal.lines p
        ++ [(js "git clone " ++ repo, js "cmd");
            (js "git: " ++ name ++ js " mapped into vfs.node_modules." ++ name,
             js "success")])
       [] modules (AuraTerminal.node_modules_proto p) (Some modules)
       (AuraTerminal.timers p),
     None).
Proof.
  intros Hprefix Hseg Hslash Hname Hproto Hinput repo name modules.
  rewrite (executeCommand_git_clone now_name now_clone repo p)
    by (done || by apply word_repository).
  unfold repo. change (js "/" ++ seg) with (47 :: seg).
  rewrite handleGit_clone by done. cbv zeta.
  replace (match AuraTerminal.strip_git seg with
           | [] => js "repo-" ++ show_Z now_name
           | _ :: _ => AuraTerminal.strip_git seg
           end) with name
    by (unfold name; by destruct (AuraTerminal.strip_git seg)).
  unfold AuraTerminal.assign. rewrite bool_decide_eq_false_2 by done.
  unfold AuraTerminal.print, AuraTerminal.saveVFS.
  cbn [AuraTerminal.lines AuraTerminal.input AuraTerminal.node_modules
       AuraTerminal.node_modules_proto AuraTerminal.saved AuraTerminal.timers].
  by rewrite <- app_assoc.
Qed.

Lemma git_clone_maps_repository_witness :
  AuraTerminal.node_modules
    (AuraTerminal.executeCommand 7 8 (js "Enter")
       (blank_page (js "git clone https://github.com/a/b.git"))).1
  !! js "b"
  = Some (clone_entry (js "https://github.com/a/b.git") 8).
Proof.
  rewrite (git_clone_maps_repository 7 8 (js "https://github.com/a") (js "b.git")).
  - apply lookup_insert_eq.
  - apply (bool_decide_unpack _). by vm_compute.
  - apply (bool_decide_unpack _). by vm_compute.
  - apply (bool_decide_unpack _). by vm_compute.
  - by vm_compute.
  - by vm_compute.
  - reflexivity.
Defined.

(** [git clone <repo>], where the repository ends in [/] or in [/.git]:
    no name is left of it, and the entry is stored under [repo-] followed
    by the clock. *)
Theorem git_clone_unnamed_repository now_name now_clone prefix seg p :
  spaceless prefix ->
  seg = [] \/ seg = js ".git" ->
  AuraTerminal.input p = js "git clone " ++ prefix ++ js "/" ++ seg ->
  let repo := prefix ++ js "/" ++ seg in
  let name := js "repo-" ++ show_Z now_name in
  let modules := <[name := clone_entry repo now_clone]> (AuraTerminal.node_modules p) in
  AuraTerminal.executeCommand now_name now_clone (js "Enter") p
  = (AuraTerminal.mkPage
       (AuraTerminal.lines p
        ++ [(js "git clone " ++ repo, js "cmd");
            (js "git: " ++ name ++ js " mapped into vfs.node_modules." ++ name,
             js "success")])
       [] modules (AuraTerminal.node_modules_proto p) (Some modules)
       (AuraTerminal.timers p),
     None).
Proof.
  intros Hprefix Hseg Hinput repo name modules.
  assert (Hstrip : AuraTerminal.strip_git seg = []) by by destruct Hseg as [->| ->].
  assert (Hspaceless : spaceless seg).
  { destruct Hseg as [->| ->]; [by constructor|].
    apply (bool_decide_unpack _). by vm_compute. }
  assert (Hslash : 47 ∉ seg).
  { destruct Hseg as [->| ->]; apply (bool_decide_unpack _); by vm_compute. }
  rewrite (executeCommand_git_clone now_name now_clone repo p)
    by (done || by apply word_repository).
  unfold repo. change (js "/" ++ seg) with (47 :: seg).
  rewrite handleGit_clone by done. cbv zeta. rewrite Hstrip. fold name.
  unfold AuraTerminal.assign. rewrite bool_decide_eq_false_2 by done.
  unfold AuraTerminal.print, AuraTerminal.saveVFS.
  cbn [AuraTerminal.lines AuraTerminal.input AuraTerminal.node_modules
       AuraTerminal.node_modules_proto AuraTerminal.saved AuraTerminal.timers].
  by rewrite <- app_assoc.
Qed.

Lemma git_clone_unnamed_repository_witness :
  AuraTerminal.node_modules
    (AuraTerminal.executeCommand 7 8 (js "Enter")
       (blank_page (js "git clone https://github.com/a/"))).1
  !! js "repo-7"
  = Some (clone_entry (js "https://github.com/a/") 8).
Proof.
  rewrite (git_clone_unnamed_repository 7 8 (js "https://github.com/a") []).
  - apply lookup_insert_eq.
  - apply (bool_decide_unpack _). by vm_compute.
  - by left.
  - reflexivity.
Defined.

(** [git clone <repo>], where the last segment of the repository is
    [__proto__] or [__proto__.git]: the terminal reports the mapping, but
    [node_modules] gets no entry; the assignment replaces its prototype. *)
Theorem git_clone_proto_not_stored now_name now_clone prefix seg p :
  spaceless prefix ->
  seg = js "__proto__" \/ seg = js "__proto__.git" ->
  AuraTerminal.input p = js "git clone " ++ prefix ++ js "/" ++ seg ->
  let repo := prefix ++ js "/" ++ seg in
  AuraTerminal.executeCommand now_name now_clone (js "Enter") p
  = (AuraTerminal.mkPage
       (AuraTerminal.lines p
        ++ [(js "git clone " ++ repo, js "cmd");
            (js "git: __proto__ mapped into vfs.node_modules.__proto__",
             js "success")])
       [] (AuraTerminal.node_modules p) (Some (clone_entry repo now_clone))
       (Some (AuraTerminal.node_modules p)) (AuraTerminal.timers p),
     None).
Proof.
  intros Hprefix Hseg Hinput repo.
  assert (Hstrip : AuraTerminal.strip_git seg = js "__proto__")
    by by destruct Hseg as [->| ->].
  assert (Hspaceless : spaceless seg).
  { destruct Hseg as [->| ->]; apply (bool_decide_unpack _); by vm_compute. }
  assert (Hslash : 47 ∉ seg).
  { destruct Hseg as [->| ->]; apply (bool_decide_unpack _); by vm_compute. }
  rewrite (executeCommand_git_clone now_name now_clone repo p)
    by (done || by apply word_repository).
  unfold repo. change (js "/" ++ seg) with (47 :: seg).
  rewrite handleGit_clone by done. cbv zeta. rewrite Hstrip.
  change (match js "__proto__" with
          | [] => js "repo-" ++ show_Z now_name
          | _ :: _ => js "__proto__"
          end) with (js "__proto__").
  unfold AuraTerminal.assign. rewrite bool_decide_eq_true_2 by done.
  unfold clone_entry. cbn [typeof_object].
  unfold AuraTerminal.print, AuraTerminal.saveVFS.
  cbn [AuraTerminal.lines AuraTerminal.input AuraTerminal.node_modules
       AuraTerminal.node_modules_proto AuraTerminal.saved AuraTerminal.timers].
  by rewrite <- app_assoc.
Qed.

Lemma git_clone_proto_not_stored_witness :
  AuraTerminal.node_modules
    (AuraTerminal.executeCommand 7 8 (js "Enter")
       (blank_page (js "git clone a/__proto__"))).1
  = ∅.
Proof.
  rewrite (git_clone_proto_not_stored 7 8 (js "a") (js "__proto__")).
  - reflexivity.
  - apply (bool_decide_unpack _). by vm_compute.
  - by left.
  - reflexivity.
Defined.

Lemma command_line_cons w rest :
  rest <> [] -> command_line (w :: rest) = w ++ 32 :: command_line rest.
Proof. by destruct rest. Qed.

Lemma command_line_split words :
  words <> [] -> Forall word words ->
  AuraTerminal.split 32 (command_line words) = words.
Proof.
  induction words as [|w rest IH]; [done|]. intros _ Hwords.
  apply Forall_cons in Hwords as [[_ Hw] Hrest].
  apply spaceless_no_space in Hw.
  destruct rest as [|w' rest]; [by apply split_no_sep|].
  rewrite command_line_cons, split_app_sep by done. by rewrite IH.
Qed.

Lemma command_line_last words :
  words <> [] -> Forall word words ->
  exists init z, command_line words = init ++ [z] /\ is_whitespace z = false.
Proof.
  induction words as [|w rest IH]; [done|]. intros _ Hwords.
  apply Forall_cons in Hwords as [[Hne Hw] Hrest].
  destruct rest as [|w' rest].
  - cbn [command_line]. destruct w as [|z init _] using rev_ind; [done|].
    unfold spaceless in Hw. rewrite Forall_app, Forall_singleton in Hw.
    exists init, z. by destruct Hw.
  - destruct IH as (init & z & Hline & Hz); [done..|].
    rewrite command_line_cons, Hline by done.
    exists (w ++ 32 :: init), z. by rewrite <- app_assoc.
Qed.

Lemma command_line_trim words :
  words <> [] -> Forall word words ->
  exists a rest,
    command_line words = a :: rest /\ trim (command_line words) = a :: rest.
Proof.
  intros Hne Hwords.
  destruct (command_line_last words Hne Hwords) as (init & z & Hline & Hz).
  destruct words as [|w rest]; [done|].
  pose proof Hwords as Hw. apply Forall_cons in Hw as [[Hw Hspaceless] _].
  destruct w as [|a w]; [done|]. apply Forall_cons in Hspaceless as [Ha _].
  assert (Hshape : exists tail, command_line ((a :: w) :: rest) = a :: tail).
  { destruct rest; [by exists w|]. rewrite command_line_cons by done. by eexists. }
  destruct Hshape as [tail Hshape]. exists a, tail. split; [done|].
  rewrite Hshape in *. by apply (trim_fixed a tail init z).
Qed.

(** Reduces the tests of [executeCommand] on a first word that is known. *)
Ltac known_word :=
  repeat match goal with
    | |- context [bool_decide (js ?a = js ?b)] =>
        let v := eval vm_compute in (bool_decide (js a = js b)) in
        change (bool_decide (js a = js b)) with v
    end;
  cbn [andb orb existsb].

Lemma executeCommand_install now_name now_clone mgr rest p :
  mgr ∈ managers -> Forall word rest ->
  AuraTerminal.input p = command_line (mgr :: rest) ->
  AuraTerminal.executeCommand now_name now_clone (js "Enter") p
  = (AuraTerminal.handleInstall mgr
       match rest with
       | _ :: pkg :: _ => VStr pkg
       | _ => VUndef
       end
       (AuraTerminal.print (command_line (mgr :: rest)) (js "cmd")
          (AuraTerminal.mkPage (AuraTerminal.lines p) []
             (AuraTerminal.node_modules p) (AuraTerminal.node_modules_proto p)
             (AuraTerminal.saved p) (AuraTerminal.timers p))),
     None).
Proof.
  intros Hmgr Hrest Hinput.
  assert (Hwords : Forall word (mgr :: rest)).
  { apply Forall_cons. split; [|done]. unfold managers in Hmgr.
    rewrite !elem_of_cons, elem_of_nil in Hmgr.
    destruct Hmgr as [->|[->|[->|[->|[]]]]];
      (split; [done|apply (bool_decide_unpack _); by vm_compute]). }
  destruct (command_line_trim (mgr :: rest)) as (a & tail & Hline & Htrim);
    [done..|].
  pose proof (command_line_split (mgr :: rest)) as Hsplit.
  unfold AuraTerminal.executeCommand.
  rewrite bool_decide_eq_true_2 by done.
  rewrite Hinput, Htrim. cbv iota. rewrite <- Hline.
  rewrite Hsplit by done. cbn [hd drop].
  unfold managers in Hmgr. rewrite !elem_of_cons, elem_of_nil in Hmgr.
  destruct Hmgr as [->|[->|[->|[->|[]]]]]; known_word;
    by destruct rest as [|? [|? ?]].
Qed.

(** A line for one of the four managers with three words or more: the
    third word is the package, whatever the second word is. The terminal
    shows the line and the resolving message, and the callback waits 500
    ms; nothing is stored yet. *)
Theorem install_ignores_action_word now_name now_clone mgr action pkg more p :
  mgr ∈ managers -> Forall word (action :: pkg :: more) ->
  AuraTerminal.input p = command_line (mgr :: action :: pkg :: more) ->
  AuraTerminal.executeCommand now_name now_clone (js "Enter") p
  = (AuraTerminal.mkPage
       (AuraTerminal.lines p
        ++ [(command_line (mgr :: action :: pkg :: more), js "cmd");
            (mgr ++ js ": Resolving " ++ pkg ++ js " dependencies...", js "info")])
       [] (AuraTerminal.node_modules p) (AuraTerminal.node_modules_proto p)
       (AuraTerminal.saved p)
       (AuraTerminal.timers p ++ [(500%Z, mgr, VStr pkg)]),
     None).
Proof.
  intros Hmgr Hwords Hinput.
  rewrite (executeCommand_install now_name now_clone mgr (action :: pkg :: more) p)
    by done.
  unfold AuraTerminal.handleInstall, AuraTerminal.print.
  cbn [AuraTerminal.lines AuraTerminal.input AuraTerminal.node_modules
       AuraTerminal.node_modules_proto AuraTerminal.saved AuraTerminal.timers
       ToString].
  by rewrite <- app_assoc.
Qed.

Lemma install_ignores_action_word_witness :
  AuraTerminal.timers
    (AuraTerminal.executeCommand 7 8 (js "Enter")
       (blank_page (js "npm uninstall lodash"))).1
  = [(500%Z, js "npm", VStr (js "lodash"))].
Proof.
  rewrite (install_ignores_action_word 7 8 (js "npm") (js "uninstall")
             (js "lodash") []).
  - reflexivity.
  - apply (bool_decide_unpack _). by vm_compute.
  - repeat constructor; try done; apply (bool_decide_unpack _); by vm_compute.
  - reflexivity.
Defined.

(** A line for one of the four managers with one or two words: there is
    no third word, so the package is [undefined]. The message names
    [undefined], and the callback, once it runs, stores the key
    [undefined]. *)
Theorem install_without_package_name now_name now_clone mgr rest p :
  mgr ∈ managers -> Forall word rest -> (length rest <= 1)%nat ->
  AuraTerminal.input p = command_line (mgr :: rest) ->
  AuraTerminal.executeCommand now_name now_clone (js "Enter") p
  = (AuraTerminal.mkPage
       (AuraTerminal.lines p
        ++ [(command_line (mgr :: rest), js "cmd");
            (mgr ++ js ": Resolving undefined dependencies...", js "info")])
       [] (AuraTerminal.node_modules p) (AuraTerminal.node_modules_proto p)
       (AuraTerminal.saved p)
       (AuraTerminal.timers p ++ [(500%Z, mgr, VUndef)]),
     None)
  /\ forall q,
       AuraTerminal.node_modules (AuraTerminal.install_done mgr VUndef q)
       = <[js "undefined" := VStr (js "cached")]> (AuraTerminal.node_modules q).
Proof.
  intros Hmgr Hwords Hlen Hinput. split; [|done].
  rewrite (executeCommand_install now_name now_clone mgr rest p) by done.
  replace (match rest with _ :: pkg :: _ => VStr pkg | _ => VUndef end)
    with VUndef by (destruct rest as [|? [|? ?]]; cbn in Hlen; done || lia).
  unfold AuraTerminal.handleInstall, AuraTerminal.print.
  cbn [AuraTerminal.lines AuraTerminal.input AuraTerminal.node_modules
       AuraTerminal.node_modules_proto AuraTerminal.saved AuraTerminal.timers
       ToString].
  by rewrite <- app_assoc.
Qed.

Lemma install_without_package_name_witness :
  AuraTerminal.timers
    (AuraTerminal.executeCommand 7 8 (js "Enter")
       (blank_page (js "npm lodash"))).1
  = [(500%Z, js "npm", VUndef)].
Proof.
  destruct (install_without_package_name 7 8 (js "npm") [js "lodash"]
              (blank_page (js "npm lodash"))) as [Hrun _].
  - apply (bool_decide_unpack _). by vm_compute.
  - repeat constructor; try done; apply (bool_decide_unpack _); by vm_compute.
  - cbn [length]. lia.
  - reflexivity.
  - rewrite Hrun. reflexivity.
Defined.

(** Whatever is typed, [executeCommand] leaves [node_modules] and what is
    saved of it alone, or leaves the two equal; the callback of
    [handleInstall] leaves them equal. *)
Theorem executeCommand_saves_what_it_stores now_name now_clone key p :
  let p' := (AuraTerminal.executeCommand now_name now_clone key p).1 in
  ((AuraTerminal.node_modules p' = AuraTerminal.node_modules p
    /\ AuraTerminal.saved p' = AuraTerminal.saved p)
   \/ AuraTerminal.saved p' = Some (AuraTerminal.node_modules p'))
  /\ forall mgr pkg,
       AuraTerminal.saved (AuraTerminal.install_done mgr pkg p)
       = Some (AuraTerminal.node_modules (AuraTerminal.install_done mgr pkg p)).
Proof.
  split; [|done].
  unfold AuraTerminal.executeCommand.
  case_bool_decide; [|by left].
  destruct (trim (AuraTerminal.input p)) as [|c line]; [by left|].
  set (words := AuraTerminal.split 32 (c :: line)).
  destruct (_ && _); [by left|].
  destruct (bool_decide _).
  - unfold AuraTerminal.handleGit.
    destruct (negb _); [by left|].
    destruct (drop 2 words) as [|[|? ?] ?]; [by left..|].
    by right.
  - destruct (existsb _ _); [by left|].
    destruct (bool_decide _); [by left|].
    destruct (bool_decide _); by left.
Qed.

(** The line is split at every space: after [git] and two spaces the
    action is the empty string, which is not [clone], whatever follows.
    The terminal reports an unsupported action and nothing is stored. *)
Theorem git_double_space_unsupported now_name now_clone words p :
  words <> [] -> Forall word words ->
  AuraTerminal.input p = js "git  " ++ command_line words ->
  AuraTerminal.executeCommand now_name now_clone (js "Enter") p
  = (AuraTerminal.mkPage
       (AuraTerminal.lines p
        ++ [(js "git  " ++ command_line words, js "cmd");
            (js "git: Unsupported action ", js "error")])
       [] (AuraTerminal.node_modules p) (AuraTerminal.node_modules_proto p)
       (AuraTerminal.saved p) (AuraTerminal.timers p),
     None).
Proof.
  intros Hne Hwords Hinput.
  destruct (command_line_last words Hne Hwords) as (init & z & Hlast & Hz).
  assert (Htrim : trim (js "git  " ++ command_line words)
                  = js "git  " ++ command_line words).
  { apply (trim_fixed 103 _ (js "git  " ++ init) z); [|done..].
    rewrite Hlast. by rewrite <- app_assoc. }
  assert (Hsplit : AuraTerminal.split 32 (js "git  " ++ command_line words)
                   = js "git" :: [] :: words).
  { change (js "git  " ++ command_line words)
      with (js "git" ++ 32 :: [] ++ 32 :: command_line words).
    rewrite !split_app_sep by (apply (bool_decide_unpack _); by vm_compute).
    by rewrite command_line_split. }
  unfold AuraTerminal.executeCommand.
  rewrite bool_decide_eq_true_2 by done.
  rewrite Hinput, Htrim, Hsplit.
  change (js "git  " ++ command_line words)
    with (103 :: js "it  " ++ command_line words) at 1.
  cbv iota. cbn [hd drop]. known_word.
  unfold AuraTerminal.handleGit.
  change (strict_eq_string (VStr []) (js "clone")) with false.
  cbn [negb ToString]. unfold AuraTerminal.print.
  cbn [AuraTerminal.lines AuraTerminal.input AuraTerminal.node_modules
       AuraTerminal.node_modules_proto AuraTerminal.saved AuraTerminal.timers].
  by rewrite <- app_assoc, app_nil_r.
Qed.

Lemma git_double_space_unsupported_witness :
  AuraTerminal.node_modules
    (AuraTerminal.executeCommand 7 8 (js "Enter")
       (blank_page (js "git  clone https://github.com/a/b.git"))).1
  = ∅.
Proof.
  rewrite (git_double_space_unsupported 7 8
             [js "clone"; js "https://github.com/a/b.git"]).
  - reflexivity.
  - done.
  - repeat constructor; try done; apply (bool_decide_unpack _); by vm_compute.
  - reflexivity.
Defined.
